(** * bulk-data-server, [lib.js]: a shallow embedding and its properties

    The module under study is a collection of small helpers (string
    formatting, argument decoding, an authorization gate).  The file has two
    parts: first the embedding (the JavaScript data the helpers work on, the
    built-ins they call, then the helpers themselves, each one transcribed
    from its source text), then the theorems.

    Conventions of the embedding:
    - a JavaScript string is a sequence of UTF-16 code units; the embedding
      covers strings whose code units are below 256, written as [string];
    - a JavaScript value is JSON data or [undefined]; functions, symbols and
      objects with user-defined conversions are outside the data model;
    - a number is [NaN], an infinity or an integer-valued double; [-0] and
      [+0] are identified (no operation used by the helpers tells them
      apart); doubles with a fractional part are outside the data model;
    - an exception is an error object, of which the helpers only ever read
      [name] and [message]; code that may throw returns a [result]. *)

From Stdlib Require Import ZArith List String Ascii Bool Lia DecimalString.
From Stdlib Require DecimalFacts DecimalPos DecimalN.
From Equations Require Import Equations.
Import ListNotations.

Local Open Scope string_scope.
Local Open Scope Z_scope.

(* ===================================================================== *)
(** * Part I: the embedding                                               *)
(* ===================================================================== *)

(** ** Strings *)

Module Str.

Definition code (c : ascii) : Z := Z.of_N (N_of_ascii c).

(** WhiteSpace and LineTerminator code units (ECMAScript 11.2, 11.3) that
    lie below 256: TAB, LF, VT, FF, CR, SP and NBSP. *)
Definition is_whitespace (c : ascii) : bool :=
  let n := code c in
  (n =? 9) || (n =? 10) || (n =? 11) || (n =? 12) || (n =? 13)
  || (n =? 32) || (n =? 160).

Definition is_digit (c : ascii) : bool :=
  let n := code c in (48 <=? n) && (n <=? 57).

Definition digit_value (c : ascii) : Z := code c - 48.

(** The double quote, code unit 34. *)
Definition quot : ascii := "034"%char.

(** [String.prototype.trimStart], [trimEnd], [trim]. *)
Fixpoint trimStart (s : string) : string :=
  match s with
  | EmptyString => EmptyString
  | String c s' => if is_whitespace c then trimStart s' else s
  end.

Fixpoint trimEnd (s : string) : string :=
  match s with
  | EmptyString => EmptyString
  | String c s' =>
      match trimEnd s' with
      | EmptyString => if is_whitespace c then EmptyString else String c EmptyString
      | t => String c t
      end
  end.

Definition trim (s : string) : string := trimEnd (trimStart s).

(** [s.split(sep)] for a separator of one code unit: the result always has
    at least one segment. *)
Fixpoint split (sep : ascii) (s : string) : list string :=
  match s with
  | EmptyString => [EmptyString]
  | String c s' =>
      if Ascii.eqb c sep then EmptyString :: split sep s'
      else match split sep s' with
           | seg :: rest => String c seg :: rest
           | [] => [String c EmptyString]
           end
  end.

(** [s.replace(/c/g, r)] for a pattern of one literal code unit and a
    replacement text [r] without [$] patterns. *)
Fixpoint replace_all (c : ascii) (r : string) (s : string) : string :=
  match s with
  | EmptyString => EmptyString
  | String a s' =>
      if Ascii.eqb a c then r ++ replace_all c r s'
      else String a (replace_all c r s')
  end.

(** [s.replace(/(%s)/g, callback)]: the matches are found left to right
    and do not overlap; the callback is run once per match, in order, and
    here threads a state [St] (the variables it closes over).  The text it
    returns is inserted literally. *)
Fixpoint replace_tokens {St : Type} (callback : St -> string * St)
         (st : St) (s : string) : string :=
  match s with
  | EmptyString => EmptyString
  | String c rest =>
      match rest with
      | String d rest' =>
          if Ascii.eqb c "%" && Ascii.eqb d "s"
          then let (r, st') := callback st in r ++ replace_tokens callback st' rest'
          else String c (replace_tokens callback st rest)
      | EmptyString => String c EmptyString
      end
  end.

(** Canonicalize for a match under the [i] flag without the [u] flag
    (ECMAScript, RegExp semantics): the upper-case form of the code unit
    when that is a single code unit, except that a code unit of 128 or more
    is never mapped below 128.  Below 256 the letters with an upper-case form
    are a-z, 224-254 without the division sign 247, the micro sign 181
    (upper case U+039C) and 255 (upper case U+0178); the sharp s, 223, has
    a two-unit upper case and stays.  The result may exceed 255, hence a
    number. *)
Definition canonicalize (c : ascii) : Z :=
  let n := code c in
  if (97 <=? n) && (n <=? 122) then n - 32
  else if (224 <=? n) && (n <=? 254) && negb (n =? 247) then n - 32
  else if n =? 181 then 924
  else if n =? 255 then 376
  else n.

Definition to_lower_ascii (c : ascii) : ascii :=
  let n := code c in
  if (65 <=? n) && (n <=? 90) then ascii_of_N (Z.to_N (n + 32)) else c.

Fixpoint map (f : ascii -> ascii) (s : string) : string :=
  match s with
  | EmptyString => EmptyString
  | String c s' => String (f c) (map f s')
  end.

Fixpoint forallb (f : ascii -> bool) (s : string) : bool :=
  match s with
  | EmptyString => true
  | String c s' => f c && forallb f s'
  end.

Definition is_ascii (c : ascii) : bool := code c <? 128.

(** Whole-string match of the literal [pat] under the [i] flag. *)
Fixpoint eqb_ci (pat s : string) : bool :=
  match pat, s with
  | EmptyString, EmptyString => true
  | String p pat', String c s' =>
      (canonicalize p =? canonicalize c) && eqb_ci pat' s'
  | _, _ => false
  end.

(** Decimal numeral of a natural number, ["0"] for zero. *)
Definition of_Z (n : Z) : string :=
  NilZero.string_of_uint (N.to_uint (Z.to_N n)).

Fixpoint zeros (n : nat) : string :=
  match n with
  | O => EmptyString
  | S n' => String "0" (zeros n')
  end.

Definition len (s : string) : Z := Z.of_nat (String.length s).

(** [s.replace(/^c/, "")] for a literal code unit [c]: one leading [c] is
    dropped. *)
Definition drop_leading (c : ascii) (s : string) : string :=
  match s with
  | EmptyString => EmptyString
  | String a s' => if Ascii.eqb a c then s' else s
  end.

(** [s.replace(/c$/, "")] for a literal code unit [c]; without the [m] flag
    the [$] only matches at the end of the text, so one trailing [c] is
    dropped. *)
Fixpoint drop_trailing (c : ascii) (s : string) : string :=
  match s with
  | EmptyString => EmptyString
  | String a s' =>
      match s' with
      | EmptyString => if Ascii.eqb a c then EmptyString else s
      | String _ _ => String a (drop_trailing c s')
      end
  end.

End Str.

(** ** Numbers *)

Inductive number : Type :=
| NaN
| Infinity (negative : bool)
| Fin (z : Z).

Module Num.

(** The Number value for a mathematical integer [n >= 0]: round to 53
    significant bits, to nearest and ties to even.  A result of [2^1024] or
    more stands for an overflow. *)
Definition round_to_double (n : Z) : Z :=
  let k := Z.log2 n in
  if k <? 53 then n
  else
    let sh := k - 52 in
    let q := Z.shiftr n sh in
    let r := Z.land n (Z.ones sh) in
    let half := Z.shiftl 1 (sh - 1) in
    let q' := if (half <? r) || ((r =? half) && Z.odd q) then q + 1 else q in
    Z.shiftl q' sh.

Definition of_Z (z : Z) : number :=
  let m := round_to_double (Z.abs z) in
  if 2 ^ 1024 <=? m then Infinity (z <? 0) else Fin (Z.sgn z * m).

Definition isNaN (x : number) : bool :=
  match x with NaN => true | _ => false end.

Definition isFinite (x : number) : bool :=
  match x with Fin _ => true | _ => false end.

(** [x < 0]; every comparison with [NaN] is false. *)
Definition ltb_zero (x : number) : bool :=
  match x with
  | NaN => false
  | Infinity negative => negative
  | Fin z => z <? 0
  end.

(** Digits of Number::toString (ECMAScript 6.1.6.1.20, radix 10): the
    least number of digits [s] and the power of ten [e] with
    [s * 10^e] converting back to [x]; [x > 0].  The search goes from the
    coarsest power of ten down, so the first hit has the fewest digits;
    of two hits the one nearer to [x] is taken. *)
Fixpoint shortest_from (fuel : nat) (e : Z) (x : Z) : Z * Z :=
  match fuel with
  | O => (x, 0)
  | S fuel' =>
      let p := 10 ^ e in
      let lo := x / p in
      let hi := lo + 1 in
      let ok_lo := (0 <? lo) && (round_to_double (lo * p) =? x) in
      let ok_hi := round_to_double (hi * p) =? x in
      if ok_lo && ok_hi
      then (if x - lo * p <=? hi * p - x then (lo, e) else (hi, e))
      else if ok_lo then (lo, e)
      else if ok_hi then (hi, e)
      else if e =? 0 then (x, 0)
      else shortest_from fuel' (e - 1) x
  end.

Definition shortest (x : Z) : Z * Z :=
  let n := String.length (Str.of_Z x) in
  shortest_from (S n) (Z.of_nat n) x.

Definition toString_pos (x : Z) : string :=
  let (s, e) := shortest x in
  let digits := Str.of_Z s in
  let n := Str.len digits + e in
  if n <=? 21 then digits ++ Str.zeros (Z.to_nat e)
  else
    match digits with
    | String d EmptyString => String d ("e+" ++ Str.of_Z (n - 1))
    | String d more => String d ("." ++ more ++ "e+" ++ Str.of_Z (n - 1))
    | EmptyString => EmptyString
    end.

Definition toString (x : number) : string :=
  match x with
  | NaN => "NaN"
  | Infinity false => "Infinity"
  | Infinity true => "-Infinity"
  | Fin z =>
      if z =? 0 then "0"
      else if z <? 0 then "-" ++ toString_pos (- z)
      else toString_pos z
  end.

(** Value of the longest prefix of decimal digits, [None] when the text
    does not start with a digit. *)
Fixpoint digits_prefix (acc : option Z) (s : string) : option Z :=
  match s with
  | EmptyString => acc
  | String c s' =>
      if Str.is_digit c
      then digits_prefix
             (Some (match acc with
                    | Some a => 10 * a + Str.digit_value c
                    | None => Str.digit_value c
                    end)) s'
      else acc
  end.

(** [parseInt(s, 10)] (ECMAScript 19.2.5): leading white space is
    skipped, one sign is read, then the longest run of decimal digits; the
    radix 10 disables the [0x] prefix. *)
Definition parseInt10 (s : string) : number :=
  let s := Str.trimStart s in
  let '(negative, s) :=
    match s with
    | String c r =>
        if Ascii.eqb c "-" then (true, r)
        else if Ascii.eqb c "+" then (false, r)
        else (false, s)
    | EmptyString => (false, s)
    end in
  match digits_prefix None s with
  | None => NaN
  | Some m => of_Z (if negative then - m else m)
  end.

End Num.

(** ** Values *)

#[warnings="-register-all"]
Inductive value : Type :=
| VUndefined
| VNull
| VBool (b : bool)
| VNum (n : number)
| VStr (s : string)
| VArr (items : list value)
| VObj (fields : list (string * value)).

(** An error object: the helpers read nothing but [name] and [message]. *)
Record exn : Type := mkExn { exn_name : value; exn_message : value }.

Inductive result (A : Type) : Type :=
| Ok (a : A)
| Throw (e : exn).
Arguments Ok {A} a.
Arguments Throw {A} e.

Module JS.

Definition Error (message : string) : exn :=
  mkExn (VStr "Error") (VStr message).
Definition TypeError (message : string) : exn :=
  mkExn (VStr "TypeError") (VStr message).
Definition SyntaxError (message : string) : exn :=
  mkExn (VStr "SyntaxError") (VStr message).

Definition bind {A B : Type} (c : result A) (k : A -> result B) : result B :=
  match c with
  | Ok a => k a
  | Throw e => Throw e
  end.

(** [try { c } catch (e) { handler e }] *)
Definition try_catch {A : Type} (c : result A) (handler : exn -> result A)
  : result A :=
  match c with
  | Ok a => Ok a
  | Throw e => handler e
  end.

(** ToBoolean *)
Definition truthy (v : value) : bool :=
  match v with
  | VUndefined | VNull => false
  | VBool b => b
  | VNum NaN => false
  | VNum (Infinity _) => true
  | VNum (Fin z) => negb (z =? 0)
  | VStr s => negb (String.eqb s "")
  | VArr _ | VObj _ => true
  end.

(** The [typeof] operator *)
Definition typeof (v : value) : string :=
  match v with
  | VUndefined => "undefined"
  | VNull => "object"
  | VBool _ => "boolean"
  | VNum _ => "number"
  | VStr _ => "string"
  | VArr _ | VObj _ => "object"
  end.

(** ToString; also [String(v)] and [v + ""].  An array is joined with
    commas, [null] and [undefined] elements giving the empty text. *)
Fixpoint ToString (v : value) : string :=
  match v with
  | VUndefined => "undefined"
  | VNull => "null"
  | VBool true => "true"
  | VBool false => "false"
  | VNum n => Num.toString n
  | VStr s => s
  | VArr items =>
      (fix join (first : bool) (l : list value) {struct l} : string :=
         match l with
         | [] => ""
         | x :: l' =>
             (if first then "" else ",")
             ++ match x with
                | VUndefined | VNull => ""
                | _ => ToString x
                end
             ++ join false l'
         end) true items
  | VObj _ => "[object Object]"
  end.

(** [a || b] on values already computed. *)
Definition or (a b : value) : value := if truthy a then a else b.

(** [a || b] where evaluating an operand may throw; [b] is only looked at
    when [a] is falsy. *)
Definition or_else (a b : result value) : result value :=
  bind a (fun x => if truthy x then Ok x else b).

(** A parameter with a default value takes it when the argument is
    [undefined] (or missing). *)
Definition default_arg (v d : value) : value :=
  match v with
  | VUndefined => d
  | _ => v
  end.

Fixpoint assoc {A : Type} (key : string) (l : list (string * A)) : option A :=
  match l with
  | [] => None
  | (k, a) :: l' => if String.eqb k key then Some a else assoc key l'
  end.

(** An integer index: a key that is the canonical numeral of a natural
    number below [2^32 - 1]. *)
Definition index_of_key (key : string) : option nat :=
  match Num.digits_prefix None key with
  | Some n =>
      if String.eqb (Str.of_Z n) key && (n <? 2 ^ 32 - 1)
      then Some (Z.to_nat n) else None
  | None => None
  end.

(** Own data properties of a value that is neither [null] nor
    [undefined]: the fields of an object, the elements and [length] of an
    array, the code units and [length] of a string.  (Members inherited
    from the built-in prototypes are functions, which the data model does
    not contain; they read as [undefined] here.) *)
Definition own_property (v : value) (key : string) : value :=
  match v with
  | VObj fields =>
      match assoc key fields with
      | Some x => x
      | None => VUndefined
      end
  | VArr items =>
      if String.eqb key "length" then VNum (Fin (Z.of_nat (List.length items)))
      else match index_of_key key with
           | Some i => nth i items VUndefined
           | None => VUndefined
           end
  | VStr s =>
      if String.eqb key "length" then VNum (Fin (Str.len s))
      else match index_of_key key with
           | Some i =>
               match String.get i s with
               | Some c => VStr (String c EmptyString)
               | None => VUndefined
               end
           | None => VUndefined
           end
  | _ => VUndefined
  end.

(** The property read [v[key]]: a TypeError on [null] and [undefined]. *)
Definition get (v : value) (key : string) : result value :=
  match v with
  | VUndefined | VNull =>
      Throw (TypeError ("Cannot read property '" ++ key ++ "' of " ++ ToString v))
  | _ => Ok (own_property v key)
  end.

End JS.

Declare Scope js_scope.
Delimit Scope js_scope with js.
Notation "x <- c ;; k" := (JS.bind c (fun x => k))
  (at level 61, c at next level, right associativity) : js_scope.

(** ** The collaborators of [lib.js]

    [lib.js] calls into packages and into the configuration module, none of
    which is part of it.  They are taken as an interface:
    - [base64url_decode] is [decode] of the package [base64-url];
    - [JSON_parse] is [JSON.parse] on a string; it either returns a value
      or throws a SyntaxError, whose message is the left alternative;
    - [Buffer_base64_utf8 s] is [new Buffer(s, "base64").toString("utf8")],
      which accepts every string;
    - [jwt_verify] is [verify] of the package [jsonwebtoken];
    - [config_jwtSecret] is [jwtSecret] of the module [./config]. *)
Class Host : Type := {
  base64url_decode : value -> result string;
  JSON_parse : string -> string + value;
  Buffer_base64_utf8 : string -> string;
  jwt_verify : value -> value -> result value;
  config_jwtSecret : value
}.

(** ** HTTP requests and the effects of a handler *)

Record request : Type := mkRequest {
  headers : list (string * string);
  params : list (string * string)
}.

(** What a handler does to its [res] and [next] arguments, in order. *)
Inductive effect : Type :=
| Status (code : Z)
| Send (body : value)
| Next.

(** ** The functions of [lib.js] *)

Module Lib.

Import JS.
Local Open Scope js_scope.

(** [const RE_FALSE = /^(0|no|false|off|null|undefined|NaN|)$/i]: the
    alternatives of the anchored group. *)
Definition RE_FALSE : list string :=
  ["0"; "no"; "false"; "off"; "null"; "undefined"; "NaN"; ""].

(** [RE_FALSE.test(s)]: the anchors make the match a whole-string match
    against one of the alternatives, letter case ignored. *)
Definition RE_FALSE_test (s : string) : Datatypes.bool :=
  existsb (fun alt => Str.eqb_ci alt s) RE_FALSE.

(** [function htmlEncode(html)] *)
Definition htmlEncode (html : value) : string :=
  Str.replace_all Str.quot "&quot;"
    (Str.replace_all ">" "&gt;"
       (Str.replace_all "<" "&lt;"
          (Str.replace_all "&" "&amp;"
             (Str.trim (ToString html))))).

(** [JSON.parse] as an operation that may throw. *)
Definition JSON_parse_or_throw `{Host} (text : string) : result value :=
  match JSON_parse text with
  | inr parsed => Ok parsed
  | inl message => Throw (SyntaxError message)
  end.

(** [function decodeArgs(inputString)]: the [catch] block cannot throw,
    so the [finally] block runs on the value [args] has after the
    [try]/[catch], and the [return] follows it. *)
Definition decodeArgs `{Host} (inputString : value) : result value :=
  args <- try_catch
            (decoded <- base64url_decode inputString ;;
             JSON_parse_or_throw decoded)
            (fun ex => Ok VNull) ;;
  let args :=
    if negb (truthy args) || negb (String.eqb (typeof args) "object")
    then VObj []
    else args in
  Ok args.

(** [function getRequestedParams(req, paramName = "sim")] *)
Definition getRequestedParams `{Host} (req : request) (paramName : option string)
  : result value :=
  let paramName := match paramName with Some p => p | None => "sim" end in
  decodeArgs
    match assoc paramName (params req) with
    | Some p => VStr p
    | None => VUndefined
    end.

(** [function getPath(obj, path = "")] *)
Definition getPath (obj : value) (path : option string) : result value :=
  let path := match path with Some p => p | None => "" end in
  fold_left
    (fun out key =>
       out <- out ;;
       if truthy out then get out key else Ok VUndefined)
    (Str.split "." path)
    (Ok obj).

(** [function checkAuth(req, res, next)] *)
Definition checkAuth `{Host} (req : request) : result (list effect) :=
  match assoc "authorization" (headers req) with
  | Some authorization =>
      if truthy (VStr authorization) then
        match jwt_verify
                (nth 1 (List.map VStr (Str.split " " authorization)) VUndefined)
                config_jwtSecret
        with
        | Throw e =>
            Ok [Status 401;
                Send (VStr (ToString (or (exn_name e) (VStr "Error"))
                            ++ ": "
                            ++ ToString (or (exn_message e) (VStr "Invalid token"))))]
        | Ok token =>
            error <- or_else (get token "err")
                       (or_else (get token "sim_error") (get token "auth_error")) ;;
            if truthy error
            then Ok [Status 401; Send error]
            else Ok [Next]
        end
      else Ok [Next]
  | None => Ok [Next]
  end.

(** [function printf(s)]; [arguments] holds every argument of the call,
    the template [s] included. *)
Definition printf (arguments : list value) : string :=
  let s := nth 0 arguments VUndefined in
  let args := arguments in
  let l := Z.of_nat (List.length args) in
  Str.replace_tokens
    (fun i =>
       let i := i + 1 in
       (ToString (if l <? i then VStr "" else nth (Z.to_nat i) args VUndefined), i))
    0
    (ToString (or s (VStr ""))).

(** [function parseToken(token)] *)
Definition parseToken `{Host} (token : value) : result value :=
  match token with
  | VStr token =>
      let token := Str.split "." token in
      if negb (Nat.eqb (List.length token) 3)
      then Throw (Error "Invalid token structure")
      else
        JSON_parse_or_throw (Buffer_base64_utf8 (nth 1 token ""))
  | _ => Throw (Error "The token must be a string")
  end.

(** The test [isNaN(x) || !isFinite(x) || x < 0] of [uInt]. *)
Definition uInt_rejects (x : number) : Datatypes.bool :=
  Num.isNaN x || negb (Num.isFinite x) || Num.ltb_zero x.

(** Number of nested calls [uInt(x, defaultValue)] makes. *)
Definition uInt_depth (x defaultValue : value) : nat :=
  if uInt_rejects (Num.parseInt10 (ToString x ++ ""))
  then if uInt_rejects
            (Num.parseInt10
               (ToString (default_arg defaultValue (VNum (Fin 0))) ++ ""))
       then 2 else 1
  else 0.

Definition inspect {A : Type} (a : A) : {b : A | a = b} := exist _ a eq_refl.

(** [function uInt(x, defaultValue = 0)] *)
Equations? uInt (x defaultValue : value) : number
  by wf (uInt_depth x defaultValue) lt :=
  uInt x defaultValue
    with inspect (uInt_rejects (Num.parseInt10 (ToString x ++ ""))) := {
    | exist _ true _ =>
        uInt (default_arg defaultValue (VNum (Fin 0))) (VNum (Fin 0))
    | exist _ false _ => Num.parseInt10 (ToString x ++ "") }.
Proof.
  unfold uInt_depth. rewrite e.
  destruct (uInt_rejects
              (Num.parseInt10
                 (ToString (default_arg defaultValue (VNum (Fin 0))) ++ "")));
    [change (1 < 2)%nat | change (0 < 1)%nat]; lia.
Qed.

(** [function buildUrlPath(...segments)] *)
Definition buildUrlPath (segments : list value) : string :=
  String.concat "/"
    (List.map
       (fun s => Str.drop_trailing "/" (Str.drop_leading "/" (ToString s)))
       segments).

Section Errors.

(** [config.errors] of the module [./config], an object, by its fields. *)
Variable config_errors : list (string * value).



End Errors.

(** [function forEachFile(options, cb)].  The package [walk] reports what
    it finds through events, one at a time: it goes on to the next event
    when the handler of the current one calls [next].  A walk is the list of
    the events it reports. *)
Inductive walk_event : Type :=
| File (root name : string)
| Errors (root : string) (error : value)
| End_of_walk.

(** [Walker.walk(dir, {followLinks})] and [Path.resolve(root, name)]. *)
Class FileSystem : Type := {
  Walker_walk : string -> Datatypes.bool -> list walk_event;
  Path_resolve : string -> string -> string
}.

(** The [options] argument before the defaults are filled in; [limit] is
    an integer or left out, [filter] a function or left out (or [null]). *)
Record walk_options : Type := mkWalkOptions {
  dir : option string;
  filter : option (string -> value);
  followLinks : option Datatypes.bool;
  limit : option Z
}.

(** A promise is pending or settled, and settles once. *)
Inductive settlement : Type :=
| Resolved
| Rejected (e : exn).

(** The variables the handlers share: the counter [i], the promise, and,
    to observe the walk, the paths [cb] was called with, in order.  [cb] is
    taken to call [next]. *)
Record walk_state : Type := mkWalkState {
  counter : Z;
  promise : option settlement;
  called : list string
}.

Definition settle (s : settlement) (st : walk_state) : walk_state :=
  match promise st with
  | None => mkWalkState (counter st) (Some s) (called st)
  | Some _ => st
  end.

(** The three handlers, [limit] and [filter] being those of the merged
    options. *)
Definition on_event `{FileSystem} (filter : option (string -> value)) (limit : Z)
           (st : walk_state) (event : walk_event) : walk_state :=
  match event with
  | Errors root error =>
      settle (Rejected (Error ("Error: " ++ ToString error ++ root ++ " - "))) st
  | End_of_walk => settle Resolved st
  | File root name =>
      let path := Path_resolve root name in
      if match filter with
         | Some accept => negb (truthy (accept path))
         | None => false
         end
      then st
      else if negb (limit =? 0)
      then let i := counter st + 1 in
           if limit <? i
           then mkWalkState i (promise st) (called st)
           else mkWalkState i (promise st) (called st ++ [path])
      else mkWalkState (counter st) (promise st) (called st ++ [path])
  end.

Definition forEachFile `{FileSystem} (options : walk_options) : walk_state :=
  let dir := match dir options with Some d => d | None => "." end in
  let followLinks := match followLinks options with Some b => b | None => false end in
  let limit := match limit options with Some l => l | None => 0 end in
  fold_left (on_event (filter options) limit)
            (Walker_walk dir followLinks)
            (mkWalkState 0 None []).

(** [function bool(x)] *)
Definition bool (x : value) : Datatypes.bool :=
  negb (RE_FALSE_test (Str.trim (ToString x))).

End Lib.


(** ** A host to run the helpers on

    The theorems below hold for every [Host].  To run the helpers on
    concrete inputs one host is fixed here: it records what the packages
    return on a handful of texts (each blob below is the base64url form of
    the text next to it, and the value is what the text parses to); every
    other blob stands for one that carries no JSON text.  Signing is
    replaced by a stand-in: a token verifies when its third segment is the
    secret, and then yields its payload, parsed when that gives an object
    and as text otherwise. *)

Module Sample.

Import JS.
Local Open Scope js_scope.

(** The pieces joined by double quotes. *)
Definition quoted (pieces : list string) : string :=
  String.concat (String Str.quot "") pieces.

Definition known : list (string * (string * value)) :=
  [ ("eyJhIjoxfQ",
      (quoted ["{"; "a"; ":1}"], VObj [("a", VNum (Fin 1))]));
    ("NDI", ("42", VNum (Fin 42)));
    ("bnVsbA", ("null", VNull));
    ("e30", ("{}", VObj []));
    ("eyJzdWIiOiJ1c2VyIn0",
      (quoted ["{"; "sub"; ":"; "user"; "}"], VObj [("sub", VStr "user")]));
    ("eyJzaW1fZXJyb3IiOiJib29tIn0",
      (quoted ["{"; "sim_error"; ":"; "boom"; "}"],
       VObj [("sim_error", VStr "boom")])) ].

Definition decode (blob : string) : string :=
  match assoc blob known with
  | Some (text, _) => text
  | None => ""
  end.

Definition encode (text : string) : string :=
  match find (fun entry => String.eqb (fst (snd entry)) text) known with
  | Some (blob, _) => blob
  | None => ""
  end.

Definition parse (text : string) : string + value :=
  match find (fun entry => String.eqb (fst (snd entry)) text) known with
  | Some (_, (_, parsed)) => inr parsed
  | None => inl "Unexpected token"
  end.

(** [JSON.stringify] on the two mappings the examples serialise. *)
Definition stringify (v : value) : option string :=
  match v with
  | VObj [] => Some "{}"
  | VObj [(key, VNum (Fin 1))] =>
      if String.eqb key "a" then Some (quoted ["{"; "a"; ":1}"]) else None
  | _ => None
  end.

Definition JsonWebTokenError (message : string) : exn :=
  mkExn (VStr "JsonWebTokenError") (VStr message).

Definition verify (token secretOrKey : value) : result value :=
  match token with
  | VStr jwtString =>
      match Str.split "." jwtString with
      | [_; payload; signature] =>
          if String.eqb signature (ToString secretOrKey)
          then match parse (decode payload) with
               | inr (VObj fields) => Ok (VObj fields)
               | inr (VArr items) => Ok (VArr items)
               | inr _ => Ok (VStr (decode payload))
               | inl _ => Throw (JsonWebTokenError "invalid token")
               end
          else Throw (JsonWebTokenError "invalid signature")
      | _ => Throw (JsonWebTokenError "jwt malformed")
      end
  | _ => Throw (JsonWebTokenError "jwt must be provided")
  end.

#[export] Instance host : Host := {
  base64url_decode input :=
    match input with
    | VStr blob => Ok (decode blob)
    | _ => Throw (TypeError "The first argument must be a string")
    end;
  JSON_parse := parse;
  Buffer_base64_utf8 := decode;
  jwt_verify := verify;
  config_jwtSecret := VStr "secret"
}.

(** A request with the given [authorization] header and nothing else. *)
Definition request_with (authorization : string) : request :=
  mkRequest [("host", "localhost"); ("authorization", authorization)] [].


(** A walk over three files with an error in between, and paths joined
    with a slash. *)
#[export] Instance files : Lib.FileSystem := {
  Walker_walk dir followLinks :=
    [ Lib.File dir "a.json"; Lib.File dir "b.txt";
      Lib.Errors dir (VStr "EACCES "); Lib.File dir "c.json";
      Lib.End_of_walk ];
  Path_resolve root name := root ++ "/" ++ name
}.

(** A filter on the last four code units of a path. *)
Definition json_only (path : string) : value :=
  VBool (String.eqb (substring (String.length path - 4) 4 path) "json").

End Sample.

(** ** Notions used in the statements *)

Import JS.
Local Open Scope js_scope.

(** What [printf] puts in place of the [k]-th token, counted from 1, of a
    call with the extra arguments [args]. *)
Definition printf_replacement (args : list value) (k : Z) : string :=
  if k <=? Z.of_nat (List.length args)
  then ToString (nth (Z.to_nat (k - 1)) args VUndefined)
  else if k =? Z.of_nat (List.length args) + 1 then "undefined"
  else "".

(** The texts [bool] takes for false, up to letter case. *)
Definition false_words : list string :=
  ["0"; "no"; "false"; "off"; "null"; "undefined"; "NaN"; ""].

Definition same_ignoring_case (a b : string) : Prop :=
  Str.map Str.to_lower_ascii a = Str.map Str.to_lower_ascii b.

(** The entity of one code unit. *)
Definition entity (c : ascii) : string :=
  if Ascii.eqb c "&" then "&amp;"
  else if Ascii.eqb c "<" then "&lt;"
  else if Ascii.eqb c ">" then "&gt;"
  else if Ascii.eqb c Str.quot then "&quot;"
  else String c EmptyString.

(** Escaping in one pass: every code unit of the input gives its entity,
    and no text that the escaping produced is looked at again. *)
Fixpoint escape_once (s : string) : string :=
  match s with
  | EmptyString => EmptyString
  | String c s' => entity c ++ escape_once s'
  end.

(** One step of the walk: the callback that [getPath] hands to [reduce]. *)
Definition descend (out : result value) (key : string) : result value :=
  out <- out ;;
  if truthy out then get out key else Ok VUndefined.


(** [s] has an occurrence of the code unit [c]. *)
Fixpoint has_char (c : ascii) (s : string) : bool :=
  match s with
  | EmptyString => false
  | String a s' => Ascii.eqb a c || has_char c s'
  end.

(** Number of matches of [/(%s)/g] in [s]. *)
Fixpoint count_tokens (s : string) : nat :=
  match s with
  | EmptyString => O
  | String c rest =>
      match rest with
      | String d rest' =>
          if Ascii.eqb c "%" && Ascii.eqb d "s"
          then S (count_tokens rest')
          else count_tokens rest
      | EmptyString => O
      end
  end.

(** The template made of the pieces [first], [p1], [p2], ... with one
    token between neighbours, and the same pieces with the texts of the
    arguments in place of the tokens. *)
Fixpoint template (first : string) (pieces : list string) : string :=
  match pieces with
  | [] => first
  | p :: pieces' => first ++ "%s" ++ template p pieces'
  end.

Fixpoint filled (first : string) (args : list value) (pieces : list string)
  : string :=
  match pieces, args with
  | p :: pieces', x :: args' => first ++ ToString x ++ filled p args' pieces'
  | _, _ => first
  end.

(** The first, and the last, code unit of [s] is [c]. *)
Definition first_is (c : ascii) (s : string) : bool :=
  match s with
  | EmptyString => false
  | String a _ => Ascii.eqb a c
  end.

Fixpoint last_is (c : ascii) (s : string) : bool :=
  match s with
  | EmptyString => false
  | String a EmptyString => Ascii.eqb a c
  | String _ s' => last_is c s'
  end.

(** A segment of a URL path as a caller may write it: a name with or
    without a slash before and after it. *)
Definition decorated (segment : bool * string * bool) : value :=
  let '(before, name, after) := segment in
  VStr ((if before then "/" else "") ++ name ++ (if after then "/" else "")).

(** The paths of the files of a walk that the filter lets through. *)
Fixpoint accepted `{Lib.FileSystem} (filter : option (string -> value))
         (events : list Lib.walk_event) : list string :=
  match events with
  | [] => []
  | Lib.File root name :: events' =>
      let path := Lib.Path_resolve root name in
      if match filter with
         | Some accept => truthy (accept path)
         | None => true
         end
      then path :: accepted filter events'
      else accepted filter events'
  | _ :: events' => accepted filter events'
  end.

(** The first event of a walk that settles the promise. *)
Fixpoint first_settlement (events : list Lib.walk_event) : option Lib.settlement :=
  match events with
  | [] => None
  | Lib.File _ _ :: events' => first_settlement events'
  | Lib.Errors root error :: _ =>
      Some (Lib.Rejected (Error ("Error: " ++ ToString error ++ root ++ " - ")))
  | Lib.End_of_walk :: _ => Some Lib.Resolved
  end.

(* ===================================================================== *)
(** * Part II: properties                                                 *)
(* ===================================================================== *)

(** ** [printf] *)

Section Tokens.

Context {St : Type}.
Variables (f g : St -> string * St) (reachable : St -> Prop).
Hypothesis agree : forall st, reachable st -> f st = g st.
Hypothesis closed : forall st, reachable st -> reachable (snd (g st)).

(** Two callbacks that agree on the states the scan can reach give the
    same text. *)
Lemma replace_tokens_agree (s : string) :
  forall st, reachable st ->
    Str.replace_tokens f st s = Str.replace_tokens g st s.
Proof.
  assert (both : forall st, reachable st ->
    Str.replace_tokens f st s = Str.replace_tokens g st s
    /\ forall c, Str.replace_tokens f st (String c s)
                 = Str.replace_tokens g st (String c s)).
  { induction s as [|d s' IH]; intros st Hst.
    - split; reflexivity.
    - destruct (IH st Hst) as [IHs IHc]. split; [apply IHc|].
      intro c. cbn [Str.replace_tokens].
      destruct (Ascii.eqb c "%" && Ascii.eqb d "s").
      + rewrite (agree st Hst). pose proof (closed st Hst) as Hnext.
        destruct (g st) as [r st']. cbn [snd] in Hnext.
        f_equal. apply (IH st' Hnext).
      + f_equal. apply IHc. }
  intros st Hst. apply (both st Hst).
Qed.

End Tokens.

Lemma printf_tokens (s : value) (args : list value) :
  Lib.printf (s :: args)
  = Str.replace_tokens
      (fun i => (printf_replacement args (i + 1), i + 1))
      0
      (ToString (JS.or s (VStr ""))).
Proof.
  unfold Lib.printf.
  apply replace_tokens_agree with (reachable := fun i => 0 <= i); [| |lia].
  - intros i Hi. cbv zeta. f_equal.
    unfold printf_replacement. cbn [List.length].
    rewrite Nat2Z.inj_succ.
    destruct (Z.ltb_spec (Z.succ (Z.of_nat (List.length args))) (i + 1)).
    + destruct (Z.leb_spec (i + 1) (Z.of_nat (List.length args))); [lia|].
      destruct (Z.eqb_spec (i + 1) (Z.of_nat (List.length args) + 1)); [lia|].
      reflexivity.
    + replace (Z.to_nat (i + 1)) with (S (Z.to_nat i)) by lia.
      cbn [nth].
      destruct (Z.leb_spec (i + 1) (Z.of_nat (List.length args))).
      * replace (i + 1 - 1) with i by lia. reflexivity.
      * destruct (Z.eqb_spec (i + 1) (Z.of_nat (List.length args) + 1)); [|lia].
        rewrite nth_overflow by lia. reflexivity.
  - intros i Hi. cbn [snd]. lia.
Qed.

(** C1.  A call whose template has more [%s] tokens than there are
    arguments does not blank every token that lacks an argument: the first
    such token becomes the text [undefined], and only the ones after it
    become empty.  [printf("%s and %s", "x")] is ["x and undefined"]. *)
Theorem printf_first_missing_argument_is_undefined :
  Lib.printf [VStr "%s and %s"; VStr "x"] = "x and undefined"
  /\ Lib.printf [VStr "%s and %s"; VStr "x"] <> "x and "
  /\ Lib.printf [VStr "%s, %s, %s"; VStr "x"] = "x, undefined, "
  /\ forall s args,
       Lib.printf (s :: args)
       = Str.replace_tokens
           (fun i => (printf_replacement args (i + 1), i + 1))
           0
           (ToString (JS.or s (VStr ""))).
Proof.
  split; [reflexivity|].
  split; [discriminate|].
  split; [reflexivity|].
  exact printf_tokens.
Qed.

(** ** [checkAuth] *)

Section Gate.

Context `{Host}.

(** C2.  A request without an [authorization] header is passed on: the
    handler calls [next] and does nothing to the response. *)
Theorem checkAuth_without_authorization (req : request) :
  assoc "authorization" (headers req) = None ->
  Lib.checkAuth req = Ok [Next].
Proof.
  intros Habsent. unfold Lib.checkAuth. rewrite Habsent. reflexivity.
Qed.

(** The error indicator of a payload: [err], else [sim_error], else
    [auth_error]. *)
Lemma error_indicator (token : value) :
  token <> VUndefined -> token <> VNull ->
  or_else (get token "err")
    (or_else (get token "sim_error") (get token "auth_error"))
  = Ok (JS.or (own_property token "err")
          (JS.or (own_property token "sim_error")
             (own_property token "auth_error"))).
Proof.
  intros Hu Hn.
  assert (Hget : forall key, get token key = Ok (own_property token key)).
  { intro key. destruct token; try reflexivity; contradiction. }
  rewrite !Hget. unfold or_else, JS.or, bind.
  destruct (truthy (own_property token "err")); [reflexivity|].
  destruct (truthy (own_property token "sim_error")); reflexivity.
Qed.

(** C3.  When the token of the request verifies, the payload's [err],
    [sim_error] and [auth_error] are looked at in this order; the first
    truthy one is sent as the body of a 401 response, and when none is
    truthy the handler calls [next]. *)
Theorem checkAuth_verified_token
        (req : request) (authorization : string) (token : value) :
  assoc "authorization" (headers req) = Some authorization ->
  authorization <> "" ->
  jwt_verify (nth 1 (List.map VStr (Str.split " " authorization)) VUndefined)
             config_jwtSecret = Ok token ->
  token <> VUndefined -> token <> VNull ->
  Lib.checkAuth req
  = Ok (if truthy (own_property token "err")
        then [Status 401; Send (own_property token "err")]
        else if truthy (own_property token "sim_error")
        then [Status 401; Send (own_property token "sim_error")]
        else if truthy (own_property token "auth_error")
        then [Status 401; Send (own_property token "auth_error")]
        else [Next]).
Proof.
  intros Hheader Hnonempty Hverify Hu Hn.
  unfold Lib.checkAuth. rewrite Hheader.
  assert (Htruthy : truthy (VStr authorization) = true).
  { cbn. destruct (String.eqb_spec authorization ""); [contradiction|reflexivity]. }
  rewrite Htruthy, Hverify, (error_indicator token Hu Hn).
  unfold JS.or, bind.
  destruct (truthy (own_property token "err")) eqn:Herr; cbv iota.
  - rewrite Herr. reflexivity.
  - destruct (truthy (own_property token "sim_error")) eqn:Hsim; cbv iota.
    + rewrite Hsim. reflexivity.
    + destruct (truthy (own_property token "auth_error")) eqn:Hauth;
        cbv iota; rewrite ?Hauth; reflexivity.
Qed.

(** X5.  A token that does not verify is answered with 401 and the name
    and message of the failure, ["Error"] and ["Invalid token"] standing in
    for a missing one; [next] is not called. *)
Lemma checkAuth_rejected_token
      (req : request) (authorization : string) (e : exn) :
  assoc "authorization" (headers req) = Some authorization ->
  authorization <> "" ->
  jwt_verify (nth 1 (List.map VStr (Str.split " " authorization)) VUndefined)
             config_jwtSecret = Throw e ->
  Lib.checkAuth req
  = Ok [Status 401;
        Send (VStr (ToString (JS.or (exn_name e) (VStr "Error"))
                    ++ ": "
                    ++ ToString (JS.or (exn_message e) (VStr "Invalid token"))))].
Proof.
  intros Hheader Hnonempty Hverify.
  unfold Lib.checkAuth. rewrite Hheader.
  assert (Htruthy : truthy (VStr authorization) = true).
  { cbn. destruct (String.eqb_spec authorization ""); [contradiction|reflexivity]. }
  rewrite Htruthy, Hverify. reflexivity.
Qed.

(** The reads of the payload are not guarded: were [verify] to return
    [null] or [undefined], the handler would throw. *)
Lemma checkAuth_nullish_payload
      (req : request) (authorization : string) (token : value) :
  assoc "authorization" (headers req) = Some authorization ->
  authorization <> "" ->
  jwt_verify (nth 1 (List.map VStr (Str.split " " authorization)) VUndefined)
             config_jwtSecret = Ok token ->
  token = VUndefined \/ token = VNull ->
  exists e, Lib.checkAuth req = Throw e.
Proof.
  intros Hheader Hnonempty Hverify Hnullish.
  unfold Lib.checkAuth. rewrite Hheader.
  assert (Htruthy : truthy (VStr authorization) = true).
  { cbn. destruct (String.eqb_spec authorization ""); [contradiction|reflexivity]. }
  rewrite Htruthy, Hverify.
  destruct Hnullish as [-> | ->]; eexists; reflexivity.
Qed.

End Gate.

Lemma checkAuth_without_authorization_witness :
  assoc "authorization" (headers (mkRequest [("host", "localhost")] [])) = None
  /\ Lib.checkAuth (H := Sample.host) (mkRequest [("host", "localhost")] [])
     = Ok [Next].
Proof.
  split; [reflexivity|].
  apply (checkAuth_without_authorization (mkRequest [("host", "localhost")] [])).
  reflexivity.
Defined.

Lemma checkAuth_verified_token_witness :
  Lib.checkAuth (H := Sample.host)
    (Sample.request_with "Bearer e30.eyJzaW1fZXJyb3IiOiJib29tIn0.secret")
  = Ok [Status 401; Send (VStr "boom")].
Proof.
  apply (checkAuth_verified_token (H := Sample.host)
           (Sample.request_with "Bearer e30.eyJzaW1fZXJyb3IiOiJib29tIn0.secret")
           "Bearer e30.eyJzaW1fZXJyb3IiOiJib29tIn0.secret"
           (VObj [("sim_error", VStr "boom")])).
  - reflexivity.
  - discriminate.
  - reflexivity.
  - discriminate.
  - discriminate.
Defined.

(** ** [decodeArgs] and [parseToken] *)

Section Decoding.

Context `{Host}.

Lemma decodeArgs_cases (inputString : value) :
  Lib.decodeArgs inputString
  = Ok match base64url_decode inputString with
       | Throw _ => VObj []
       | Ok text =>
           match JSON_parse text with
           | inl _ => VObj []
           | inr parsed =>
               if negb (truthy parsed) || negb (String.eqb (typeof parsed) "object")
               then VObj [] else parsed
           end
       end.
Proof.
  unfold Lib.decodeArgs, Lib.JSON_parse_or_throw, try_catch, bind.
  destruct (base64url_decode inputString) as [text|e]; [|reflexivity].
  destruct (JSON_parse text) as [message|parsed]; reflexivity.
Qed.

(** A value whose [typeof] is ["object"] is truthy unless it is [null]. *)
Lemma object_truthy (v : value) :
  typeof v = "object" -> v <> VNull -> truthy v = true.
Proof.
  destruct v; cbn; intros Htype Hnull;
    try discriminate; try reflexivity; contradiction.
Qed.

(** C4.  [decodeArgs] returns on every input: the empty mapping when the
    base64url decoding throws, when the parsing throws, or when the parsed
    value is [null] or not an object, and the parsed object otherwise. *)
Theorem decodeArgs_never_raises (inputString : value) :
  (exists args, Lib.decodeArgs inputString = Ok args)
  /\ (forall e,
        base64url_decode inputString = Throw e ->
        Lib.decodeArgs inputString = Ok (VObj []))
  /\ (forall text message,
        base64url_decode inputString = Ok text ->
        JSON_parse text = inl message ->
        Lib.decodeArgs inputString = Ok (VObj []))
  /\ (forall text parsed,
        base64url_decode inputString = Ok text ->
        JSON_parse text = inr parsed ->
        parsed = VNull \/ typeof parsed <> "object" ->
        Lib.decodeArgs inputString = Ok (VObj []))
  /\ (forall text parsed,
        base64url_decode inputString = Ok text ->
        JSON_parse text = inr parsed ->
        typeof parsed = "object" -> parsed <> VNull ->
        Lib.decodeArgs inputString = Ok parsed).
Proof.
  rewrite decodeArgs_cases.
  split; [eexists; reflexivity|].
  split; [intros e ->; reflexivity|].
  split; [intros text message -> ->; reflexivity|].
  split.
  - intros text parsed -> -> [->|Htype]; [reflexivity|].
    destruct (String.eqb_spec (typeof parsed) "object"); [contradiction|].
    rewrite orb_true_r. reflexivity.
  - intros text parsed -> -> Htype Hnull.
    rewrite (object_truthy parsed Htype Hnull), Htype. reflexivity.
Qed.

(** C9.  [parseToken] throws one of its own two errors exactly when the
    argument is not a string or does not split at the dots into three
    segments; on three segments it parses the decoded middle one, and a
    failure of the parser comes out as the parser's SyntaxError. *)
Theorem parseToken_validation (token : value) :
  ((exists message, Lib.parseToken token = Throw (Error message))
   <-> (forall s, token <> VStr s)
       \/ (exists s, token = VStr s
                     /\ List.length (Str.split "." s) <> 3%nat))
  /\ (forall s header payload signature,
        token = VStr s ->
        Str.split "." s = [header; payload; signature] ->
        Lib.parseToken token
        = match JSON_parse (Buffer_base64_utf8 payload) with
          | inr parsed => Ok parsed
          | inl message => Throw (SyntaxError message)
          end).
Proof.
  split.
  - split.
    + intros [message Hthrow].
      destruct token as [| | | |s| |];
        try (left; intros s' Heq; discriminate Heq).
      right. exists s. split; [reflexivity|].
      intro Hlen. cbn [Lib.parseToken] in Hthrow.
      rewrite Hlen in Hthrow. cbn [Nat.eqb negb] in Hthrow.
      unfold Lib.JSON_parse_or_throw in Hthrow.
      destruct (JSON_parse _); discriminate Hthrow.
    + intros [Hnot|[s [-> Hlen]]].
      * exists "The token must be a string".
        destruct token; try reflexivity. exfalso. apply (Hnot s). reflexivity.
      * exists "Invalid token structure". cbn [Lib.parseToken].
        destruct (Nat.eqb_spec (List.length (Str.split "." s)) 3);
          [contradiction|reflexivity].
  - intros s header payload signature -> Hsplit.
    cbn [Lib.parseToken]. rewrite Hsplit. reflexivity.
Qed.

Section RoundTrip.

(** The encoding side, which [lib.js] leaves to its callers:
    [JSON.stringify], giving no text on [undefined], and [encode] of the
    package [base64-url]. *)
Variable JSON_stringify : value -> option string.
Variable base64url_encode : string -> string.

(** C5.  A mapping that [JSON.stringify] writes as a text which
    [JSON.parse] reads back, the text surviving the base64url coding, is
    what [decodeArgs] returns on the encoded text. *)
Theorem decodeArgs_round_trip (fields : list (string * value)) (text : string) :
  JSON_stringify (VObj fields) = Some text ->
  JSON_parse text = inr (VObj fields) ->
  base64url_decode (VStr (base64url_encode text)) = Ok text ->
  Lib.decodeArgs (VStr (base64url_encode text)) = Ok (VObj fields).
Proof.
  intros _ Hparse Hdecode.
  rewrite decodeArgs_cases, Hdecode, Hparse. reflexivity.
Qed.

End RoundTrip.

End Decoding.

Lemma decodeArgs_never_raises_witness :
  Lib.decodeArgs (H := Sample.host) (VStr "eyJhIjoxfQ")
  = Ok (VObj [("a", VNum (Fin 1))])
  /\ Lib.decodeArgs (H := Sample.host) (VStr "NDI") = Ok (VObj [])
  /\ Lib.decodeArgs (H := Sample.host) VUndefined = Ok (VObj []).
Proof.
  pose proof (decodeArgs_never_raises (H := Sample.host) (VStr "eyJhIjoxfQ"))
    as [_ [_ [_ [_ Hobject]]]].
  pose proof (decodeArgs_never_raises (H := Sample.host) (VStr "NDI"))
    as [_ [_ [_ [Hnumber _]]]].
  pose proof (decodeArgs_never_raises (H := Sample.host) VUndefined)
    as [_ [Hthrow _]].
  split; [|split].
  - apply (Hobject (Sample.quoted ["{"; "a"; ":1}"]));
      [reflexivity | reflexivity | reflexivity | discriminate].
  - apply (Hnumber "42" (VNum (Fin 42))); [reflexivity | reflexivity |].
    right. discriminate.
  - apply (Hthrow (TypeError "The first argument must be a string")).
    reflexivity.
Defined.

Lemma parseToken_validation_witness :
  Lib.parseToken (H := Sample.host) (VStr "e30.eyJzdWIiOiJ1c2VyIn0.secret")
  = Ok (VObj [("sub", VStr "user")])
  /\ exists message,
       Lib.parseToken (H := Sample.host) (VStr "e30.eyJzdWIiOiJ1c2VyIn0")
       = Throw (Error message).
Proof.
  split.
  - apply (proj2 (parseToken_validation (H := Sample.host)
                    (VStr "e30.eyJzdWIiOiJ1c2VyIn0.secret"))
             "e30.eyJzdWIiOiJ1c2VyIn0.secret" "e30" "eyJzdWIiOiJ1c2VyIn0" "secret");
      reflexivity.
  - apply (proj1 (parseToken_validation (H := Sample.host)
                    (VStr "e30.eyJzdWIiOiJ1c2VyIn0"))).
    right. exists "e30.eyJzdWIiOiJ1c2VyIn0". split; [reflexivity|].
    cbn. discriminate.
Defined.

Lemma decodeArgs_round_trip_witness :
  Lib.decodeArgs (H := Sample.host)
    (VStr (Sample.encode (Sample.quoted ["{"; "a"; ":1}"])))
  = Ok (VObj [("a", VNum (Fin 1))]).
Proof.
  apply (decodeArgs_round_trip (H := Sample.host) Sample.stringify Sample.encode
           [("a", VNum (Fin 1))] (Sample.quoted ["{"; "a"; ":1}"]));
    reflexivity.
Defined.

(** ** [bool] *)

(** On ASCII code units, canonical forms and lower-case forms determine
    each other; a code unit of 128 or more has neither below 128. *)
Lemma canonicalize_lower (c : ascii) :
  Str.is_ascii (Str.to_lower_ascii c) = true ->
  Str.canonicalize (Str.to_lower_ascii c) = Str.canonicalize c
  /\ Str.is_ascii c = true.
Proof.
  destruct c as [[] [] [] [] [] [] [] []]; vm_compute;
    first [discriminate | split; reflexivity].
Qed.

Lemma lower_canonicalize (c : ascii) :
  Str.canonicalize c < 128 ->
  Str.to_lower_ascii (ascii_of_N (Z.to_N (Str.canonicalize c)))
  = Str.to_lower_ascii c.
Proof.
  destruct c as [[] [] [] [] [] [] [] []]; vm_compute;
    first [reflexivity | discriminate].
Qed.

Lemma canonicalize_ascii (p : ascii) :
  Str.is_ascii p = true ->
  Str.canonicalize p < 128 /\ Str.is_ascii (Str.to_lower_ascii p) = true.
Proof.
  destruct p as [[] [] [] [] [] [] [] []]; vm_compute;
    first [discriminate | split; reflexivity].
Qed.

(** An ASCII code unit of the pattern meets a code unit of the input under
    the [i] flag exactly when the two are the same up to the case of an
    ASCII letter. *)
Lemma canonicalize_eq_lower (p c : ascii) :
  Str.is_ascii p = true ->
  Str.canonicalize p = Str.canonicalize c
  <-> Str.to_lower_ascii p = Str.to_lower_ascii c.
Proof.
  intros Hp. destruct (canonicalize_ascii p Hp) as [Hsmall Hlower].
  split; intro Heq.
  - rewrite <- (lower_canonicalize p Hsmall).
    rewrite Heq in Hsmall |- *. apply lower_canonicalize. exact Hsmall.
  - rewrite Heq in Hlower.
    destruct (canonicalize_lower c Hlower) as [Hc _].
    rewrite <- Hc, <- Heq.
    symmetry. apply canonicalize_lower. rewrite Heq. exact Hlower.
Qed.

Lemma eqb_ci_lower (pat s : string) :
  Str.forallb Str.is_ascii pat = true ->
  Str.eqb_ci pat s = true
  <-> Str.map Str.to_lower_ascii pat = Str.map Str.to_lower_ascii s.
Proof.
  revert s. induction pat as [|p pat IH]; intros [|c s] Hascii; cbn;
    try (split; [discriminate|discriminate]).
  - split; reflexivity.
  - cbn in Hascii. apply andb_true_iff in Hascii as [Hp Hpat].
    rewrite andb_true_iff, Z.eqb_eq, (IH s Hpat), (canonicalize_eq_lower p c Hp).
    split.
    + intros [-> ->]. reflexivity.
    + intros Heq. injection Heq as Hc Hs. split; assumption.
Qed.

Lemma RE_FALSE_ascii (alt : string) :
  In alt Lib.RE_FALSE -> Str.forallb Str.is_ascii alt = true.
Proof.
  unfold Lib.RE_FALSE. cbn [In].
  intros Hin.
  repeat (destruct Hin as [<-|Hin]; [reflexivity|]). contradiction.
Qed.

(** C6.  [bool(x)] is false exactly when the text of [x], trimmed, is one
    of the eight false words up to letter case, and true on every other
    text. *)
Theorem bool_false_words (x : value) :
  (Lib.bool x = false
   <-> exists word, In word false_words
                    /\ same_ignoring_case word (Str.trim (ToString x)))
  /\ (Lib.bool x = true
      <-> ~ exists word, In word false_words
                         /\ same_ignoring_case word (Str.trim (ToString x))).
Proof.
  assert (Htest : Lib.RE_FALSE_test (Str.trim (ToString x)) = true
                  <-> exists word, In word false_words
                        /\ same_ignoring_case word (Str.trim (ToString x))).
  { unfold Lib.RE_FALSE_test. rewrite existsb_exists.
    split; intros [word [Hin Hsame]]; exists word; (split; [exact Hin|]);
      apply (eqb_ci_lower word _ (RE_FALSE_ascii word Hin)); exact Hsame. }
  unfold Lib.bool. split.
  - rewrite negb_false_iff. exact Htest.
  - rewrite negb_true_iff, <- Htest.
    destruct (Lib.RE_FALSE_test (Str.trim (ToString x))); split;
      intro; congruence.
Qed.

(** The values listed with the property in the specification. *)
Example bool_samples :
  List.map (fun s => Lib.bool (VStr s))
    ["0"; "No"; "FALSE"; "Off"; " "; "null"; "undefined"; "NaN"; "";
     "1"; "yes"; "anything"]
  = [false; false; false; false; false; false; false; false; false;
     true; true; true]
  /\ List.map Lib.bool
       [VUndefined; VNull; VBool false; VNum NaN; VNum (Fin 0); VArr [];
        VBool true; VNum (Fin 7); VObj []]
     = [false; false; false; false; false; false; true; true; true].
Proof. split; reflexivity. Qed.

(** ** [htmlEncode] *)

Lemma four_replacements (s : string) :
  Str.replace_all Str.quot "&quot;"
    (Str.replace_all ">" "&gt;"
       (Str.replace_all "<" "&lt;"
          (Str.replace_all "&" "&amp;" s)))
  = escape_once s.
Proof.
  induction s as [|c s IH]; [reflexivity|].
  cbn [escape_once Str.replace_all]. unfold entity.
  destruct (Ascii.eqb c "&") eqn:Hamp.
  { cbn. rewrite IH. reflexivity. }
  cbn [Str.replace_all].
  destruct (Ascii.eqb c "<") eqn:Hlt.
  { cbn. rewrite IH. reflexivity. }
  cbn [Str.replace_all].
  destruct (Ascii.eqb c ">") eqn:Hgt.
  { cbn. rewrite IH. reflexivity. }
  cbn [Str.replace_all].
  destruct (Ascii.eqb c Str.quot) eqn:Hquot.
  { cbn. rewrite IH. reflexivity. }
  cbn. rewrite IH. reflexivity.
Qed.

(** C7.  [htmlEncode] trims its input and then replaces the ampersands,
    the less-than signs, the greater-than signs and the double quotes, in
    this order; the outcome is the one-pass escaping of the trimmed text, so
    nothing is escaped twice. *)
Theorem htmlEncode_escapes_once :
  (forall html,
     Lib.htmlEncode html
     = Str.replace_all Str.quot "&quot;"
         (Str.replace_all ">" "&gt;"
            (Str.replace_all "<" "&lt;"
               (Str.replace_all "&" "&amp;"
                  (Str.trim (ToString html))))))
  /\ (forall html,
        Lib.htmlEncode html = escape_once (Str.trim (ToString html)))
  /\ Lib.htmlEncode
       (VStr ("<a href=" ++ String Str.quot "x" ++ String Str.quot ">&</a>"))
     = "&lt;a href=&quot;x&quot;&gt;&amp;&lt;/a&gt;".
Proof.
  split; [reflexivity|].
  split; [|reflexivity].
  intros html. unfold Lib.htmlEncode. apply four_replacements.
Qed.

(** ** [uInt] *)

(** The body of [uInt], one call unfolded. *)
Lemma uInt_unfold (x defaultValue : value) :
  Lib.uInt x defaultValue
  = if Lib.uInt_rejects (Num.parseInt10 (ToString x ++ ""))
    then Lib.uInt (default_arg defaultValue (VNum (Fin 0))) (VNum (Fin 0))
    else Num.parseInt10 (ToString x ++ "").
Proof.
  apply (Lib.uInt_elim
           (fun x defaultValue r =>
              r = if Lib.uInt_rejects (Num.parseInt10 (ToString x ++ ""))
                  then Lib.uInt (default_arg defaultValue (VNum (Fin 0)))
                                (VNum (Fin 0))
                  else Num.parseInt10 (ToString x ++ ""))).
  - intros x' Hrejected defaultValue' _ _. rewrite Hrejected. reflexivity.
  - intros x' Haccepted defaultValue' _. rewrite Haccepted. reflexivity.
Qed.

(** What the test of [uInt] lets through is a finite number that is not
    negative. *)
Lemma uInt_accepts (p : number) :
  Lib.uInt_rejects p = false -> exists n, p = Fin n /\ 0 <= n.
Proof.
  destruct p as [|negative|z]; cbn; try discriminate.
  intros Hz. exists z. split; [reflexivity|]. apply Z.ltb_ge. exact Hz.
Qed.

Lemma uInt_zero (defaultValue : value) :
  Lib.uInt (VNum (Fin 0)) defaultValue = Fin 0.
Proof. rewrite uInt_unfold. reflexivity. Qed.

(** C8.  [uInt] returns on every pair of inputs, and what it returns is a
    finite integer that is not negative: the base-10 integer read from [x]
    or, when that is [NaN], infinite or negative, [uInt] of the default with
    0 for its own default. *)
Theorem uInt_finite_non_negative :
  (forall x defaultValue,
     exists n, Lib.uInt x defaultValue = Fin n /\ 0 <= n)
  /\ (forall x defaultValue,
        Lib.uInt x defaultValue
        = if Num.isNaN (Num.parseInt10 (ToString x ++ ""))
             || negb (Num.isFinite (Num.parseInt10 (ToString x ++ "")))
             || Num.ltb_zero (Num.parseInt10 (ToString x ++ ""))
          then Lib.uInt (default_arg defaultValue (VNum (Fin 0))) (VNum (Fin 0))
          else Num.parseInt10 (ToString x ++ ""))
  /\ Lib.uInt (VStr "-5") (VNum (Fin 3)) = Fin 3
  /\ Lib.uInt (VStr "7.9") VUndefined = Fin 7
  /\ Lib.uInt (VStr "abc") (VStr "xyz") = Fin 0.
Proof.
  split; [|split; [exact uInt_unfold | repeat split; reflexivity]].
  assert (Hlast : forall x, exists n, Lib.uInt x (VNum (Fin 0)) = Fin n /\ 0 <= n).
  { intros x. rewrite uInt_unfold.
    destruct (Lib.uInt_rejects (Num.parseInt10 (ToString x ++ ""))) eqn:Hx.
    - cbn [default_arg]. rewrite uInt_zero. exists 0. split; [reflexivity|lia].
    - apply uInt_accepts. exact Hx. }
  intros x defaultValue. rewrite uInt_unfold.
  destruct (Lib.uInt_rejects (Num.parseInt10 (ToString x ++ ""))) eqn:Hx.
  - apply Hlast.
  - apply uInt_accepts. exact Hx.
Qed.

(** The guard on infinities is not idle: a long run of digits reads as
    [Infinity], and the default takes over. *)
Example uInt_overflow :
  Num.parseInt10 ("1" ++ Str.zeros 400) = Infinity false
  /\ Lib.uInt (VStr ("1" ++ Str.zeros 400)) (VNum (Fin 5)) = Fin 5.
Proof. split; vm_compute; reflexivity. Qed.

(** ** [getPath] *)

Lemma split_not_nil (sep : ascii) (s : string) : Str.split sep s <> [].
Proof.
  destruct s as [|c s]; cbn; [discriminate|].
  destruct (Ascii.eqb c sep); [discriminate|].
  destruct (Str.split sep s); discriminate.
Qed.

(** Splitting a text that has a separator in the middle: the segments of
    the left part, then those of the right part. *)
Lemma split_app (sep : ascii) (p rest : string) :
  Str.split sep (p ++ String sep rest)
  = (Str.split sep p ++ Str.split sep rest)%list.
Proof.
  induction p as [|c p IH]; cbn.
  - rewrite Ascii.eqb_refl. reflexivity.
  - destruct (Ascii.eqb c sep).
    + rewrite IH. reflexivity.
    + rewrite IH. pose proof (split_not_nil sep p) as Hp.
      destruct (Str.split sep p) as [|seg segs]; [contradiction|reflexivity].
Qed.

Lemma getPath_fold (obj : value) (path : string) :
  Lib.getPath obj (Some path) = fold_left descend (Str.split "." path) (Ok obj).
Proof. reflexivity. Qed.

(** A step from a value never throws: the guard keeps [null] and
    [undefined] away from the property read. *)
Lemma descend_ok (v : value) (key : string) :
  descend (Ok v) key = Ok (if truthy v then own_property v key else VUndefined).
Proof. destruct v as [| |b|n|s|items|fields]; try reflexivity; cbn;
         match goal with |- context [if ?c then _ else _] => destruct c end;
         reflexivity.
Qed.






(** A few walks, run. *)
Example getPath_samples :
  Lib.getPath (VObj [("a", VObj [("b", VArr [VNum (Fin 1); VStr "xy"])])])
              (Some "a.b.1")
  = Ok (VStr "xy")
  /\ Lib.getPath (VObj [("a", VNum (Fin 0))]) (Some "a") = Ok (VNum (Fin 0))
  /\ Lib.getPath (VObj [("a", VNum (Fin 0))]) (Some "a.b") = Ok VUndefined
  /\ Lib.getPath VNull (Some "a") = Ok VUndefined
  /\ Lib.getPath (VObj [("", VStr "x")]) None = Ok (VStr "x").
Proof. repeat split; reflexivity. Qed.

(* ===================================================================== *)
(** * Part III: further properties of the helpers                         *)
(* ===================================================================== *)

(** ** Texts *)

Lemma append_empty (s : string) : s ++ "" = s.
Proof. induction s as [|c s IH]; cbn; [|rewrite IH]; reflexivity. Qed.

Lemma append_assoc (a b c : string) : (a ++ b) ++ c = a ++ b ++ c.
Proof. induction a as [|x a IH]; cbn; [|rewrite IH]; reflexivity. Qed.

Lemma has_char_append (c : ascii) (a b : string) :
  has_char c (a ++ b) = has_char c a || has_char c b.
Proof.
  induction a as [|x a IH]; cbn; [reflexivity|].
  rewrite IH, orb_assoc. reflexivity.
Qed.

Lemma split_single (sep : ascii) (s : string) :
  has_char sep s = false -> Str.split sep s = [s].
Proof.
  induction s as [|c s IH]; cbn; [reflexivity|].
  destruct (Ascii.eqb c sep); [discriminate|].
  cbn. intros Hs. rewrite (IH Hs). reflexivity.
Qed.

(** The text before the first separator is the first segment. *)
Lemma split_first (sep : ascii) (first rest : string) :
  has_char sep first = false ->
  Str.split sep (first ++ String sep rest) = first :: Str.split sep rest.
Proof.
  intros Hfirst. rewrite split_app, (split_single sep first Hfirst). reflexivity.
Qed.

(** ** [printf], [getErrorText], [replyWithError] *)

Lemma replace_tokens_token_free {St : Type} (f : St -> string * St) (a : string) :
  count_tokens a = O -> forall st, Str.replace_tokens f st a = a.
Proof.
  induction a as [|c a IH]; intros Hfree st; [reflexivity|].
  cbn [Str.replace_tokens]. cbn [count_tokens] in Hfree.
  destruct a as [|d a']; [reflexivity|].
  destruct (Ascii.eqb c "%" && Ascii.eqb d "s"); [discriminate|].
  rewrite (IH Hfree). reflexivity.
Qed.

(** The scan of a text that starts with a token-free piece followed by a
    token: the piece is kept, the callback gives the text for the token,
    and the scan goes on behind it. *)
Lemma replace_tokens_piece {St : Type} (f : St -> string * St) (a b : string) :
  count_tokens a = O ->
  forall st,
    Str.replace_tokens f st (a ++ "%s" ++ b)
    = a ++ fst (f st) ++ Str.replace_tokens f (snd (f st)) b.
Proof.
  assert (Hstep : forall c rest st,
    Str.replace_tokens f st (String c rest)
    = match rest with
      | String d rest' =>
          if Ascii.eqb c "%" && Ascii.eqb d "s"
          then fst (f st) ++ Str.replace_tokens f (snd (f st)) rest'
          else String c (Str.replace_tokens f st rest)
      | EmptyString => String c EmptyString
      end).
  { intros c rest st. cbn [Str.replace_tokens].
    destruct rest as [|d rest']; [reflexivity|].
    destruct (Ascii.eqb c "%" && Ascii.eqb d "s"); [|reflexivity].
    destruct (f st); reflexivity. }
  induction a as [|c a IH]; intros Hfree st.
  - change ("" ++ "%s" ++ b) with (String "%" (String "s" b)).
    rewrite Hstep. reflexivity.
  - cbn [count_tokens] in Hfree.
    change (String c a ++ "%s" ++ b) with (String c (a ++ "%s" ++ b)).
    rewrite Hstep.
    destruct a as [|d a'].
    + change ("" ++ "%s" ++ b) with (String "%" (String "s" b)) in *.
      cbn [Ascii.eqb Bool.eqb andb]. rewrite andb_false_r.
      rewrite (IH eq_refl). reflexivity.
    + change (String d a' ++ "%s" ++ b) with (String d (a' ++ "%s" ++ b)) in *.
      cbv beta iota.
      destruct (Ascii.eqb c "%" && Ascii.eqb d "s"); [discriminate|].
      rewrite (IH Hfree). reflexivity.
Qed.

Lemma printf_replacement_supplied (args : list value) (k : nat) :
  (k < List.length args)%nat ->
  printf_replacement args (Z.of_nat k + 1) = ToString (nth k args VUndefined).
Proof.
  intros Hk. unfold printf_replacement.
  destruct (Z.leb_spec (Z.of_nat k + 1) (Z.of_nat (List.length args))); [|lia].
  replace (Z.to_nat (Z.of_nat k + 1 - 1)) with k by lia. reflexivity.
Qed.

Lemma fill_from (args : list value) (pieces : list string) :
  forall first k,
    count_tokens first = O ->
    Forall (fun p => count_tokens p = O) pieces ->
    (k + List.length pieces <= List.length args)%nat ->
    Str.replace_tokens
      (fun i => (printf_replacement args (i + 1), i + 1))
      (Z.of_nat k) (template first pieces)
    = filled first (skipn k args) pieces.
Proof.
  induction pieces as [|p pieces IH]; intros first k Hfirst Hpieces Hlen.
  - cbn [template]. rewrite (replace_tokens_token_free _ first Hfirst).
    destruct (skipn k args); reflexivity.
  - cbn [template]. cbn [List.length] in Hlen.
    rewrite (replace_tokens_piece _ first _ Hfirst). cbn [fst snd].
    rewrite printf_replacement_supplied by lia.
    replace (Z.of_nat k + 1) with (Z.of_nat (S k)) by lia.
    inversion Hpieces as [|p' pieces' Hp Hrest]; subst.
    rewrite (IH p (S k) Hp Hrest) by lia.
    assert (Hskip : skipn k args = nth k args VUndefined :: skipn (S k) args).
    { clear - Hlen. revert k Hlen.
      induction args as [|x args IHargs]; intros k Hlen; cbn in Hlen; [lia|].
      destruct k as [|k]; [reflexivity|].
      cbn [skipn nth]. apply IHargs. cbn [List.length]. lia. }
    rewrite Hskip. reflexivity.
Qed.

Lemma printf_on_template
      (first : string) (pieces : list string) (args : list value) :
  count_tokens first = O ->
  Forall (fun p => count_tokens p = O) pieces ->
  (List.length pieces <= List.length args)%nat ->
  Lib.printf (VStr (template first pieces) :: args) = filled first args pieces.
Proof.
  intros Hfirst Hpieces Hlen.
  rewrite printf_tokens.
  assert (Htext : ToString (JS.or (VStr (template first pieces)) (VStr ""))
                  = template first pieces).
  { unfold JS.or. cbn [truthy].
    destruct (String.eqb_spec (template first pieces) "") as [Hempty|];
      cbn [negb ToString]; [symmetry; exact Hempty|reflexivity]. }
  rewrite Htext.
  apply (fill_from args pieces first 0%nat Hfirst Hpieces). lia.
Qed.

(** X1.  With at least as many arguments as the template has tokens,
    [printf] puts the texts of the arguments in place of the tokens, in
    order; the pieces between the tokens are kept, what an argument
    contributes is not scanned again, and arguments beyond the tokens are
    ignored. *)
Theorem printf_fills_template
        (first : string) (pieces : list string) (args : list value) :
  count_tokens first = O ->
  Forall (fun p => count_tokens p = O) pieces ->
  (List.length pieces <= List.length args)%nat ->
  Lib.printf (VStr (template first pieces) :: args) = filled first args pieces.
Proof. exact (printf_on_template first pieces args). Qed.

Lemma printf_fills_template_witness :
  Lib.printf [VStr "File %s not found in %s"; VStr "a%s.txt"; VNum (Fin 7);
              VStr "spare"]
  = "File a%s.txt not found in 7".
Proof.
  apply (printf_fills_template "File " [" not found in "; ""]
           [VStr "a%s.txt"; VNum (Fin 7); VStr "spare"]).
  - reflexivity.
  - repeat constructor.
  - cbn. lia.
Defined.

Section ErrorTexts.

Variable config_errors : list (string * value).


End ErrorTexts.


(** ** [checkAuth] and [parseToken], further *)

Section GateFurther.

Context `{Host}.

(** X3.  Whatever the request and the collaborators, a call of
    [checkAuth] that returns has either called [next] and left the response
    alone, or answered 401 with a body and not called [next]. *)
Theorem checkAuth_outcomes (req : request) (effects : list effect) :
  Lib.checkAuth req = Ok effects ->
  effects = [Next] \/ exists body, effects = [Status 401; Send body].
Proof.
  unfold Lib.checkAuth.
  destruct (assoc "authorization" (headers req)) as [authorization|].
  - destruct (truthy (VStr authorization)).
    + destruct (jwt_verify _ _) as [token|e].
      * destruct (or_else _ _) as [error|e]; cbn [bind]; [|discriminate].
        destruct (truthy error); intros Heq; injection Heq as <-;
          [right; eexists; reflexivity | left; reflexivity].
      * intros Heq. injection Heq as <-. right. eexists. reflexivity.
    + intros Heq. injection Heq as <-. left. reflexivity.
  - intros Heq. injection Heq as <-. left. reflexivity.
Qed.


(** X6.  [parseToken] looks at the middle segment only: the header and
    the signature of a token have no part in what it returns, and no
    signature is checked. *)
Theorem parseToken_reads_payload_only (header payload signature : string) :
  has_char "." header = false ->
  has_char "." payload = false ->
  has_char "." signature = false ->
  Lib.parseToken (VStr (header ++ "." ++ payload ++ "." ++ signature))
  = match JSON_parse (Buffer_base64_utf8 payload) with
    | inr parsed => Ok parsed
    | inl message => Throw (SyntaxError message)
    end.
Proof.
  intros Hheader Hpayload Hsignature.
  cbn [Lib.parseToken].
  change ("." ++ payload ++ "." ++ signature)
    with (String "." (payload ++ String "." signature)).
  rewrite (split_first "." header _ Hheader),
          (split_first "." payload _ Hpayload),
          (split_single "." signature Hsignature).
  reflexivity.
Qed.

(** X7.  What [decodeArgs] and [getRequestedParams] return is always an
    object other than [null], so that a property can be read off the result
    without a guard: the read never throws. *)
Theorem decodeArgs_returns_object :
  (forall inputString,
     exists args,
       Lib.decodeArgs inputString = Ok args
       /\ typeof args = "object" /\ args <> VNull
       /\ forall key, (args <- Lib.decodeArgs inputString ;; get args key)
                      = Ok (own_property args key))
  /\ (forall req paramName,
        exists args,
          Lib.getRequestedParams req paramName = Ok args
          /\ typeof args = "object" /\ args <> VNull).
Proof.
  assert (Hobject : forall inputString,
    exists args,
      Lib.decodeArgs inputString = Ok args
      /\ typeof args = "object" /\ args <> VNull).
  { intros inputString. rewrite decodeArgs_cases.
    eexists. split; [reflexivity|].
    destruct (base64url_decode inputString) as [text|e];
      [|split; [reflexivity|discriminate]].
    destruct (JSON_parse text) as [message|parsed];
      [split; [reflexivity|discriminate]|].
    destruct (truthy parsed) eqn:Htruthy; cbn [negb orb];
      [|split; [reflexivity|discriminate]].
    destruct (String.eqb_spec (typeof parsed) "object") as [Htype|];
      cbn [negb]; [|split; [reflexivity|discriminate]].
    split; [exact Htype|]. intros ->. discriminate Htruthy. }
  split.
  - intros inputString.
    destruct (Hobject inputString) as [args [Hargs [Htype Hnull]]].
    exists args. repeat split; try assumption.
    intros key. rewrite Hargs. cbn [bind].
    destruct args; try reflexivity; try discriminate Htype. contradiction.
  - intros req paramName. apply Hobject.
Qed.

End GateFurther.

Lemma checkAuth_outcomes_witness :
  [Status 401; Send (VStr "JsonWebTokenError: invalid signature")] = [Next]
  \/ exists body,
       [Status 401; Send (VStr "JsonWebTokenError: invalid signature")]
       = [Status 401; Send body].
Proof.
  apply (checkAuth_outcomes (H := Sample.host)
           (Sample.request_with "Bearer e30.eyJzdWIiOiJ1c2VyIn0.forged")).
  reflexivity.
Defined.


Lemma checkAuth_rejected_token_witness :
  Lib.checkAuth (H := Sample.host)
    (Sample.request_with "Bearer e30.eyJzdWIiOiJ1c2VyIn0.forged")
  = Ok [Status 401; Send (VStr "JsonWebTokenError: invalid signature")].
Proof.
  apply (checkAuth_rejected_token (H := Sample.host)
           (Sample.request_with "Bearer e30.eyJzdWIiOiJ1c2VyIn0.forged")
           "Bearer e30.eyJzdWIiOiJ1c2VyIn0.forged"
           (Sample.JsonWebTokenError "invalid signature")).
  - reflexivity.
  - discriminate.
  - reflexivity.
Defined.

Lemma parseToken_reads_payload_only_witness :
  Lib.parseToken (H := Sample.host) (VStr "anything.eyJzdWIiOiJ1c2VyIn0.unsigned")
  = Ok (VObj [("sub", VStr "user")]).
Proof.
  apply (parseToken_reads_payload_only (H := Sample.host)
           "anything" "eyJzdWIiOiJ1c2VyIn0" "unsigned");
    reflexivity.
Defined.

(** ** [bool] and [htmlEncode], further *)

Lemma trimStart_whitespace (ws t : string) :
  Str.forallb Str.is_whitespace ws = true ->
  Str.trimStart (ws ++ t) = Str.trimStart t.
Proof.
  induction ws as [|c ws IH]; cbn; [reflexivity|].
  intros Hws. apply andb_true_iff in Hws as [Hc Hws].
  rewrite Hc. apply IH. exact Hws.
Qed.

Lemma trimEnd_whitespace (t ws : string) :
  Str.forallb Str.is_whitespace ws = true ->
  Str.trimEnd (t ++ ws) = Str.trimEnd t.
Proof.
  intros Hws.
  assert (Hall : Str.trimEnd ws = "").
  { induction ws as [|c ws IH]; [reflexivity|].
    cbn in Hws. apply andb_true_iff in Hws as [Hc Hws].
    cbn. rewrite (IH Hws), Hc. reflexivity. }
  induction t as [|c t IH]; cbn; [exact Hall|].
  rewrite IH. reflexivity.
Qed.

(** White space around a text does not survive the trimming. *)
Lemma trim_padding (before s after : string) :
  Str.forallb Str.is_whitespace before = true ->
  Str.forallb Str.is_whitespace after = true ->
  Str.trim (before ++ s ++ after) = Str.trim s.
Proof.
  intros Hbefore Hafter. unfold Str.trim.
  rewrite (trimStart_whitespace before _ Hbefore).
  induction s as [|c s IH].
  - cbn [append].
    assert (Hall : Str.trimStart after = "").
    { clear - Hafter. induction after as [|c after IH]; [reflexivity|].
      cbn in Hafter. apply andb_true_iff in Hafter as [Hc Hafter].
      cbn. rewrite Hc. apply IH. exact Hafter. }
    rewrite Hall. reflexivity.
  - cbn [append Str.trimStart]. destruct (Str.is_whitespace c); [exact IH|].
    change (String c (s ++ after)) with (String c s ++ after).
    apply trimEnd_whitespace. exact Hafter.
Qed.

Lemma whitespace_lower (c : ascii) :
  Str.is_whitespace (Str.to_lower_ascii c) = Str.is_whitespace c.
Proof.
  destruct c as [[] [] [] [] [] [] [] []]; vm_compute; reflexivity.
Qed.

Lemma trim_lower (s : string) :
  Str.trim (Str.map Str.to_lower_ascii s)
  = Str.map Str.to_lower_ascii (Str.trim s).
Proof.
  assert (Hend : forall t, Str.trimEnd (Str.map Str.to_lower_ascii t)
                           = Str.map Str.to_lower_ascii (Str.trimEnd t)).
  { induction t as [|c t IH]; [reflexivity|].
    cbn. rewrite IH, whitespace_lower.
    destruct (Str.trimEnd t); cbn; [|reflexivity].
    destruct (Str.is_whitespace c); reflexivity. }
  unfold Str.trim. induction s as [|c s IH]; [reflexivity|].
  cbn [Str.map Str.trimStart]. rewrite whitespace_lower.
  destruct (Str.is_whitespace c); [exact IH|].
  apply (Hend (String c s)).
Qed.

(** X8.  [bool] neither sees white space around the text nor the case of
    ASCII letters: two texts that are the same up to these give the same
    answer. *)
Theorem bool_ignores_case_and_padding (a b before after : string) :
  Str.forallb Str.is_whitespace before = true ->
  Str.forallb Str.is_whitespace after = true ->
  same_ignoring_case a b ->
  Lib.bool (VStr (before ++ a ++ after)) = Lib.bool (VStr b).
Proof.
  intros Hbefore Hafter Hsame.
  unfold Lib.bool. cbn [ToString]. f_equal.
  rewrite (trim_padding before a after Hbefore Hafter).
  assert (Htrim : same_ignoring_case (Str.trim a) (Str.trim b)).
  { unfold same_ignoring_case in *. rewrite <- !trim_lower, Hsame. reflexivity. }
  apply eq_true_iff_eq. unfold Lib.RE_FALSE_test.
  rewrite !existsb_exists.
  split; intros [word [Hin Hmatch]]; exists word; (split; [exact Hin|]);
    apply (eqb_ci_lower word _ (RE_FALSE_ascii word Hin));
    apply (eqb_ci_lower word _ (RE_FALSE_ascii word Hin)) in Hmatch;
    unfold same_ignoring_case in Htrim; congruence.
Qed.

Lemma bool_ignores_case_and_padding_witness :
  Lib.bool (VStr "  FaLsE ") = Lib.bool (VStr "false").
Proof.
  apply (bool_ignores_case_and_padding "FaLsE" "false" "  " " "); reflexivity.
Defined.

(** X9.  [bool] is false on every falsy value ([undefined], [null],
    [false], [NaN], 0 and the empty text), and on more than these: some
    truthy values, such as a text spelling a false word or the empty array,
    are false for [bool] as well. *)
Theorem bool_false_on_falsy :
  (forall x, truthy x = false -> Lib.bool x = false)
  /\ (forall word,
        In word false_words -> word <> "" ->
        truthy (VStr word) = true /\ Lib.bool (VStr word) = false)
  /\ truthy (VArr []) = true /\ Lib.bool (VArr []) = false.
Proof.
  split; [|split; [|split; reflexivity]].
  - intros [| |[]|[|negative|z]|s|items|fields]; cbn [truthy];
      try discriminate; try reflexivity.
    + intros Hz. apply negb_false_iff, Z.eqb_eq in Hz. subst z. reflexivity.
    + intros Hs. apply negb_false_iff, String.eqb_eq in Hs. subst s. reflexivity.
  - unfold false_words. cbn [In]. intros word Hin Hnonempty.
    repeat (destruct Hin as [<-|Hin]; [split; reflexivity|]).
    destruct Hin as [<-|[]]. contradiction.
Qed.

Lemma bool_false_on_falsy_witness :
  Lib.bool (VNum (Fin 0)) = false
  /\ truthy (VStr "off") = true /\ Lib.bool (VStr "off") = false.
Proof.
  split.
  - apply (proj1 bool_false_on_falsy (VNum (Fin 0))). reflexivity.
  - apply (proj1 (proj2 bool_false_on_falsy) "off").
    + cbn. tauto.
    + discriminate.
Defined.

Lemma entity_clean (c : ascii) :
  has_char "<" (entity c) = false
  /\ has_char ">" (entity c) = false
  /\ has_char Str.quot (entity c) = false.
Proof.
  unfold entity.
  destruct (Ascii.eqb c "&"); [repeat split; reflexivity|].
  destruct (Ascii.eqb c "<") eqn:Hlt; [repeat split; reflexivity|].
  destruct (Ascii.eqb c ">") eqn:Hgt; [repeat split; reflexivity|].
  destruct (Ascii.eqb c Str.quot) eqn:Hquot; [repeat split; reflexivity|].
  cbn [has_char]. rewrite Hlt, Hgt, Hquot. repeat split; reflexivity.
Qed.

(** X10.  What [htmlEncode] returns has no less-than sign, no
    greater-than sign and no double quote, whatever the input: the text can
    be put inside an element or a quoted attribute without opening or
    closing anything. *)
Theorem htmlEncode_no_markup (html : value) :
  has_char "<" (Lib.htmlEncode html) = false
  /\ has_char ">" (Lib.htmlEncode html) = false
  /\ has_char Str.quot (Lib.htmlEncode html) = false.
Proof.
  unfold Lib.htmlEncode. rewrite four_replacements.
  induction (Str.trim (ToString html)) as [|c s [IHlt [IHgt IHquot]]];
    [repeat split; reflexivity|].
  cbn [escape_once]. rewrite !has_char_append, IHlt, IHgt, IHquot.
  destruct (entity_clean c) as [-> [-> ->]]. repeat split; reflexivity.
Qed.

Lemma entity_cases (c : ascii) :
  (c = "&"%char /\ entity c = "&amp;")
  \/ (c = "<"%char /\ entity c = "&lt;")
  \/ (c = ">"%char /\ entity c = "&gt;")
  \/ (c = Str.quot /\ entity c = "&quot;")
  \/ (c <> "&"%char /\ entity c = String c "").
Proof.
  unfold entity.
  destruct (Ascii.eqb_spec c "&"); [left; split; [assumption|reflexivity]|].
  destruct (Ascii.eqb_spec c "<");
    [right; left; split; [assumption|reflexivity]|].
  destruct (Ascii.eqb_spec c ">");
    [right; right; left; split; [assumption|reflexivity]|].
  destruct (Ascii.eqb_spec c Str.quot);
    [right; right; right; left; split; [assumption|reflexivity]|].
  right; right; right; right. split; [assumption|reflexivity].
Qed.

(** The entity of a code unit tells the code unit, and what follows it. *)
Lemma entity_prefix (c d : ascii) (a b : string) :
  entity c ++ a = entity d ++ b -> c = d /\ a = b.
Proof.
  destruct (entity_cases c) as [[Hc ->]|[[Hc ->]|[[Hc ->]|[[Hc ->]|[Hc ->]]]]];
    destruct (entity_cases d) as [[Hd ->]|[[Hd ->]|[[Hd ->]|[[Hd ->]|[Hd ->]]]]];
    cbn; intros Heq;
    try discriminate Heq;
    injection Heq; intros; subst;
    first [contradiction | split; congruence | exfalso; congruence].
Qed.

Lemma escape_once_injective (a : string) :
  forall b, escape_once a = escape_once b -> a = b.
Proof.
  assert (Hnonempty : forall c s, entity c ++ s <> "").
  { intros c s. unfold entity.
    destruct (Ascii.eqb c "&"); [discriminate|].
    destruct (Ascii.eqb c "<"); [discriminate|].
    destruct (Ascii.eqb c ">"); [discriminate|].
    destruct (Ascii.eqb c Str.quot); discriminate. }
  induction a as [|c a IH]; intros [|d b]; cbn [escape_once]; intros Heq.
  - reflexivity.
  - exfalso. symmetry in Heq. exact (Hnonempty _ _ Heq).
  - exfalso. exact (Hnonempty _ _ Heq).
  - destruct (entity_prefix c d _ _ Heq) as [-> Hrest].
    rewrite (IH b Hrest). reflexivity.
Qed.

(** X11.  [htmlEncode] loses nothing but the white space it trims: two
    inputs give the same output exactly when their trimmed texts are the
    same; in particular white space around a text never shows. *)
Theorem htmlEncode_injective_on_trimmed :
  (forall x y,
     Lib.htmlEncode x = Lib.htmlEncode y
     <-> Str.trim (ToString x) = Str.trim (ToString y))
  /\ (forall before s after,
        Str.forallb Str.is_whitespace before = true ->
        Str.forallb Str.is_whitespace after = true ->
        Lib.htmlEncode (VStr (before ++ s ++ after)) = Lib.htmlEncode (VStr s)).
Proof.
  assert (Hiff : forall x y,
    Lib.htmlEncode x = Lib.htmlEncode y
    <-> Str.trim (ToString x) = Str.trim (ToString y)).
  { intros x y. unfold Lib.htmlEncode. rewrite !four_replacements.
    split; [apply escape_once_injective | intros ->; reflexivity]. }
  split; [exact Hiff|].
  intros before s after Hbefore Hafter. apply Hiff. cbn [ToString].
  apply trim_padding; assumption.
Qed.

Lemma htmlEncode_injective_on_trimmed_witness :
  Lib.htmlEncode (VStr "  a < b  ") = Lib.htmlEncode (VStr "a < b").
Proof.
  apply (proj2 htmlEncode_injective_on_trimmed "  " "a < b" "  "); reflexivity.
Defined.

(** ** [buildUrlPath] *)

Lemma drop_trailing_appended (c : ascii) (s : string) :
  Str.drop_trailing c (s ++ String c "") = s.
Proof.
  induction s as [|a s IH].
  - cbn. rewrite Ascii.eqb_refl. reflexivity.
  - change (String a s ++ String c "") with (String a (s ++ String c "")).
    cbn [Str.drop_trailing]. rewrite IH.
    destruct s; reflexivity.
Qed.

Lemma drop_trailing_none (c : ascii) (s : string) :
  last_is c s = false -> Str.drop_trailing c s = s.
Proof.
  induction s as [|a s IH]; [reflexivity|].
  cbn [last_is Str.drop_trailing]. destruct s as [|b s'].
  - intros ->. reflexivity.
  - intros Hlast. rewrite (IH Hlast). reflexivity.
Qed.

Lemma drop_leading_none (c : ascii) (s : string) :
  first_is c s = false -> Str.drop_leading c s = s.
Proof. destruct s as [|a s]; cbn; [reflexivity|]. intros ->. reflexivity. Qed.

(** One segment: the slashes a caller put around a name are removed. *)
Lemma clean_decorated (before after : bool) (name : string) :
  first_is "/" name = false ->
  last_is "/" name = false ->
  Str.drop_trailing "/"
    (Str.drop_leading "/"
       ((if before then "/" else "") ++ name ++ (if after then "/" else "")))
  = name.
Proof.
  intros Hfirst Hlast.
  assert (Hafter : Str.drop_trailing "/" (name ++ (if after then "/" else ""))
                   = name).
  { destruct after; [apply drop_trailing_appended|].
    rewrite append_empty. apply drop_trailing_none. exact Hlast. }
  destruct before; cbn [append Str.drop_leading Ascii.eqb Bool.eqb];
    [exact Hafter|].
  destruct name as [|a name'].
  - destruct after; reflexivity.
  - change (String a name' ++ (if after then "/" else ""))
      with (String a (name' ++ (if after then "/" else ""))) in *.
    cbn [first_is] in Hfirst. cbn [Str.drop_leading]. rewrite Hfirst.
    exact Hafter.
Qed.

(** X12.  Names that neither start nor end with a slash, each written with
    or without a slash before it and after it, are joined into the names
    separated by single slashes: the slashes around a name never show. *)
Theorem buildUrlPath_joins_names (segments : list (bool * string * bool)) :
  Forall (fun '(_, name, _) =>
            first_is "/" name = false /\ last_is "/" name = false) segments ->
  Lib.buildUrlPath (List.map decorated segments)
  = String.concat "/" (List.map (fun '(_, name, _) => name) segments).
Proof.
  intros Hnames. unfold Lib.buildUrlPath. f_equal.
  rewrite List.map_map.
  induction Hnames as [|[[before name] after] segments [Hfirst Hlast] _ IH];
    [reflexivity|].
  cbn [List.map decorated ToString].
  rewrite (clean_decorated before after name Hfirst Hlast), IH. reflexivity.
Qed.

Lemma buildUrlPath_joins_names_witness :
  Lib.buildUrlPath [VStr "/a/"; VStr "/b/"; VStr "c/d"] = "a/b/c/d".
Proof.
  apply (buildUrlPath_joins_names
           [(true, "a", true); (true, "b", true); (false, "c/d", false)]).
  repeat constructor.
Defined.

(** X13.  From each end of a segment one slash is removed and no more:
    whatever stands between a leading and a trailing slash is kept as it
    is, further slashes included, so that doubled slashes of the input show
    in the path. *)
Theorem buildUrlPath_removes_one_slash (inner : list string) :
  Lib.buildUrlPath (List.map (fun t => VStr ("/" ++ t ++ "/")) inner)
  = String.concat "/" inner.
Proof.
  unfold Lib.buildUrlPath. f_equal. rewrite List.map_map.
  induction inner as [|t inner IH]; [reflexivity|].
  cbn [List.map]. f_equal; [|exact IH].
  cbn [ToString]. change ("/" ++ t ++ "/") with (String "/" (t ++ "/")).
  cbn [Str.drop_leading Ascii.eqb Bool.eqb]. apply drop_trailing_appended.
Qed.

(** ** [forEachFile] *)

Section Walk.

Context `{Lib.FileSystem}.
Variables (filter : option (string -> value)) (limit : Z).

Lemma settle_fields (s : Lib.settlement) (st : Lib.walk_state) :
  Lib.counter (Lib.settle s st) = Lib.counter st
  /\ Lib.called (Lib.settle s st) = Lib.called st
  /\ Lib.promise (Lib.settle s st)
     = match Lib.promise st with Some p => Some p | None => Some s end.
Proof.
  unfold Lib.settle.
  destruct (Lib.promise st) eqn:Hpromise; repeat split;
    try reflexivity; exact Hpromise.
Qed.

Lemma walk_called (events : list Lib.walk_event) :
  forall st,
    0 <= Lib.counter st ->
    Lib.called (fold_left (Lib.on_event filter limit) events st)
    = (Lib.called st
       ++ if limit =? 0 then accepted filter events
          else firstn (Z.to_nat (limit - Lib.counter st))
                      (accepted filter events))%list.
Proof.
  induction events as [|event events IH]; intros st Hcounter.
  - cbn [fold_left accepted]. rewrite firstn_nil.
    destruct (limit =? 0); rewrite app_nil_r; reflexivity.
  - cbn [fold_left]. destruct event as [root name|root error|].
    + cbn [Lib.on_event accepted].
      destruct filter as [accept|].
      * destruct (truthy (accept (Lib.Path_resolve root name))); cbn [negb].
        -- destruct (Z.eqb_spec limit 0) as [Hzero|Hlimit]; cbn [negb].
           ++ rewrite IH by exact Hcounter. cbn [Lib.called Lib.counter].
              rewrite <- app_assoc. reflexivity.
           ++ destruct (Z.ltb_spec limit (Lib.counter st + 1)).
              ** rewrite IH by (cbn [Lib.counter]; lia).
                 cbn [Lib.called Lib.counter].
                 replace (Z.to_nat (limit - (Lib.counter st + 1))) with O by lia.
                 replace (Z.to_nat (limit - Lib.counter st)) with O by lia.
                 reflexivity.
              ** rewrite IH by (cbn [Lib.counter]; lia).
                 cbn [Lib.called Lib.counter].
                 replace (Z.to_nat (limit - Lib.counter st))
                   with (S (Z.to_nat (limit - (Lib.counter st + 1)))) by lia.
                 cbn [firstn]. rewrite <- app_assoc. reflexivity.
        -- apply IH. exact Hcounter.
      * destruct (Z.eqb_spec limit 0) as [Hzero|Hlimit]; cbn [negb].
        -- rewrite IH by exact Hcounter. cbn [Lib.called Lib.counter].
           rewrite <- app_assoc. reflexivity.
        -- destruct (Z.ltb_spec limit (Lib.counter st + 1)).
           ++ rewrite IH by (cbn [Lib.counter]; lia).
              cbn [Lib.called Lib.counter].
              replace (Z.to_nat (limit - (Lib.counter st + 1))) with O by lia.
              replace (Z.to_nat (limit - Lib.counter st)) with O by lia.
              reflexivity.
           ++ rewrite IH by (cbn [Lib.counter]; lia).
              cbn [Lib.called Lib.counter].
              replace (Z.to_nat (limit - Lib.counter st))
                with (S (Z.to_nat (limit - (Lib.counter st + 1)))) by lia.
              cbn [firstn]. rewrite <- app_assoc. reflexivity.
    + cbn [Lib.on_event accepted].
      destruct (settle_fields
                  (Lib.Rejected (Error ("Error: " ++ ToString error ++ root ++ " - ")))
                  st) as [Hc [Hl _]].
      rewrite IH by (rewrite Hc; exact Hcounter). rewrite Hc, Hl. reflexivity.
    + cbn [Lib.on_event accepted].
      destruct (settle_fields Lib.Resolved st) as [Hc [Hl _]].
      rewrite IH by (rewrite Hc; exact Hcounter). rewrite Hc, Hl. reflexivity.
Qed.

Lemma walk_promise (events : list Lib.walk_event) :
  forall st,
    Lib.promise (fold_left (Lib.on_event filter limit) events st)
    = match Lib.promise st with
      | Some p => Some p
      | None => first_settlement events
      end.
Proof.
  induction events as [|event events IH]; intros st.
  - cbn. destruct (Lib.promise st); reflexivity.
  - cbn [fold_left]. rewrite IH. destruct event as [root name|root error|].
    + cbn [Lib.on_event first_settlement].
      destruct (match filter with
                | Some accept => negb (truthy (accept (Lib.Path_resolve root name)))
                | None => false
                end); [reflexivity|].
      destruct (negb (limit =? 0)); [|reflexivity].
      destruct (limit <? Lib.counter st + 1); reflexivity.
    + cbn [Lib.on_event first_settlement].
      destruct (settle_fields
                  (Lib.Rejected (Error ("Error: " ++ ToString error ++ root ++ " - ")))
                  st) as [_ [_ ->]].
      destruct (Lib.promise st); reflexivity.
    + cbn [Lib.on_event first_settlement].
      destruct (settle_fields Lib.Resolved st) as [_ [_ ->]].
      destruct (Lib.promise st); reflexivity.
Qed.

End Walk.

(** X14.  [forEachFile] hands to the callback the files that the filter
    lets through, in the order of the walk: all of them when the limit is 0
    or left out, the first [limit] of them when it is positive, none when
    it is negative.  Files the filter refuses do not count against the
    limit, and an error of the walk stops nothing: it only rejects the
    promise, which is settled by the first error or end of the walk. *)
Theorem forEachFile_limit `{Lib.FileSystem} (options : Lib.walk_options) :
  let events :=
    Lib.Walker_walk
      (match Lib.dir options with Some d => d | None => "." end)
      (match Lib.followLinks options with Some b => b | None => false end) in
  let files := accepted (Lib.filter options) events in
  Lib.called (Lib.forEachFile options)
  = match Lib.limit options with
    | None | Some 0 => files
    | Some limit => firstn (Z.to_nat limit) files
    end
  /\ Lib.promise (Lib.forEachFile options) = first_settlement events.
Proof.
  cbv zeta. unfold Lib.forEachFile. split.
  - rewrite walk_called by (cbn; lia). cbn [Lib.called Lib.counter app].
    destruct (Lib.limit options) as [[|limit|limit]|];
      cbn [Z.eqb]; rewrite ?Z.sub_0_r; reflexivity.
  - rewrite walk_promise. reflexivity.
Qed.

(** The walk of the sample file system, with and without a limit. *)
Example forEachFile_samples :
  Lib.called (Lib.forEachFile (H := Sample.files)
                (Lib.mkWalkOptions (Some "/data") (Some Sample.json_only)
                   None (Some 1)))
  = ["/data/a.json"]
  /\ Lib.called (Lib.forEachFile (H := Sample.files)
                   (Lib.mkWalkOptions None None None None))
     = ["./a.json"; "./b.txt"; "./c.json"]
  /\ Lib.promise (Lib.forEachFile (H := Sample.files)
                    (Lib.mkWalkOptions None None None None))
     = Some (Lib.Rejected (Error "Error: EACCES . - ")).
Proof. repeat split; reflexivity. Qed.

(** ** Numerals *)

Lemma digits_prefix_acc (d : Decimal.uint) (rest : string) :
  forall acc : positive,
    Num.digits_prefix (Some (Z.pos acc)) (NilEmpty.string_of_uint d ++ rest)
    = Num.digits_prefix (Some (Z.pos (Pos.of_uint_acc d acc))) rest.
Proof.
  induction d as [|d IH|d IH|d IH|d IH|d IH|d IH|d IH|d IH|d IH|d IH];
    intros acc; [reflexivity|..];
    cbn [NilEmpty.string_of_uint append Num.digits_prefix Pos.of_uint_acc];
    change (Str.is_digit _) with true; cbv iota;
    rewrite <- IH; do 2 f_equal;
    unfold Str.digit_value, Str.code; cbn [N_of_ascii N_of_digits]; lia.
Qed.

Lemma digits_prefix_zero (d : Decimal.uint) (rest : string) :
  Num.digits_prefix (Some 0) (NilEmpty.string_of_uint d ++ rest)
  = Num.digits_prefix (Some (Z.of_N (Pos.of_uint d))) rest.
Proof.
  induction d as [|d IH|d IH|d IH|d IH|d IH|d IH|d IH|d IH|d IH|d IH];
    [reflexivity|exact IH|..];
    cbn [NilEmpty.string_of_uint append Num.digits_prefix Pos.of_uint];
    change (Str.is_digit _) with true; cbv iota;
    cbn [Z.of_N]; rewrite <- digits_prefix_acc; reflexivity.
Qed.

Lemma digits_prefix_none (d : Decimal.uint) (rest : string) :
  d <> Decimal.Nil ->
  Num.digits_prefix None (NilEmpty.string_of_uint d ++ rest)
  = Num.digits_prefix (Some (Z.of_N (Pos.of_uint d))) rest.
Proof.
  destruct d as [|d|d|d|d|d|d|d|d|d|d]; intros Hd; [contradiction|..];
    cbn [NilEmpty.string_of_uint append Num.digits_prefix Pos.of_uint];
    change (Str.is_digit _) with true; cbv iota;
    [apply (digits_prefix_zero d rest)|..];
    cbn [Z.of_N]; rewrite <- digits_prefix_acc; reflexivity.
Qed.

Lemma to_uint_not_nil (n : N) : N.to_uint n <> Decimal.Nil.
Proof.
  destruct n as [|p]; [discriminate|]. apply DecimalPos.Unsigned.to_uint_nonnil.
Qed.

Lemma numeral_string (n : Z) :
  Str.of_Z n = NilEmpty.string_of_uint (N.to_uint (Z.to_N n)).
Proof.
  unfold Str.of_Z, NilZero.string_of_uint.
  pose proof (to_uint_not_nil (Z.to_N n)) as Hnil.
  destruct (N.to_uint (Z.to_N n)); [contradiction|reflexivity..].
Qed.

(** Reading the digits of the numeral of [n], whatever follows. *)
Lemma digits_prefix_numeral (n : Z) (rest : string) :
  0 <= n ->
  Num.digits_prefix None (Str.of_Z n ++ rest)
  = Num.digits_prefix (Some n) rest.
Proof.
  intros Hn. rewrite numeral_string.
  rewrite (digits_prefix_none _ rest (to_uint_not_nil _)).
  change (Pos.of_uint (N.to_uint (Z.to_N n)))
    with (N.of_uint (N.to_uint (Z.to_N n))).
  rewrite DecimalN.Unsigned.of_to, Z2N.id by exact Hn. reflexivity.
Qed.

Lemma string_of_uint_digits (d : Decimal.uint) :
  Str.forallb Str.is_digit (NilEmpty.string_of_uint d) = true.
Proof.
  induction d; cbn [NilEmpty.string_of_uint Str.forallb];
    [reflexivity|..]; rewrite IHd; reflexivity.
Qed.

Lemma numeral_digits (n : Z) : Str.forallb Str.is_digit (Str.of_Z n) = true.
Proof. rewrite numeral_string. apply string_of_uint_digits. Qed.

Lemma numeral_head (n : Z) :
  exists c t, Str.of_Z n = String c t /\ Str.is_digit c = true.
Proof.
  pose proof (numeral_digits n) as Hdigits. rewrite numeral_string in *.
  pose proof (to_uint_not_nil (Z.to_N n)) as Hnil.
  destruct (N.to_uint (Z.to_N n)); [contradiction|..];
    cbn [NilEmpty.string_of_uint] in *;
    eexists; eexists; (split; [reflexivity|reflexivity]).
Qed.

(** A digit is neither white space, nor a sign, nor a dot. *)
Lemma digit_plain (c : ascii) :
  Str.is_digit c = true ->
  Str.is_whitespace c = false
  /\ Ascii.eqb c "-" = false /\ Ascii.eqb c "+" = false
  /\ Ascii.eqb c "." = false /\ Ascii.eqb c "l" = false.
Proof.
  destruct c as [[] [] [] [] [] [] [] []]; vm_compute;
    first [discriminate | repeat split; reflexivity].
Qed.

Lemma digits_no_char (c : ascii) (s : string) :
  Str.is_digit c = false ->
  Str.forallb Str.is_digit s = true -> has_char c s = false.
Proof.
  intros Hc. induction s as [|a s IH]; cbn; [reflexivity|].
  intros Hs. apply andb_true_iff in Hs as [Ha Hs].
  rewrite (IH Hs), orb_false_r.
  destruct (Ascii.eqb_spec a c) as [->|]; [congruence|reflexivity].
Qed.

(** [parseInt] on a numeral, with white space before it and anything that
    does not start with a digit after it. *)
Lemma parseInt10_numeral (before rest : string) (n : Z) :
  0 <= n ->
  Str.forallb Str.is_whitespace before = true ->
  match rest with
  | EmptyString => true
  | String c _ => negb (Str.is_digit c)
  end = true ->
  Num.parseInt10 (before ++ Str.of_Z n ++ rest) = Num.of_Z n.
Proof.
  intros Hn Hbefore Hrest. unfold Num.parseInt10.
  rewrite (trimStart_whitespace before _ Hbefore).
  destruct (numeral_head n) as [c [t [Hnumeral Hdigit]]].
  destruct (digit_plain c Hdigit) as [Hws [Hminus [Hplus _]]].
  assert (Htrim : Str.trimStart (Str.of_Z n ++ rest) = Str.of_Z n ++ rest).
  { rewrite Hnumeral. cbn [append Str.trimStart]. rewrite Hws. reflexivity. }
  rewrite Htrim.
  assert (Hsign : match Str.of_Z n ++ rest with
                  | String c r =>
                      if Ascii.eqb c "-" then (true, r)
                      else if Ascii.eqb c "+" then (false, r)
                      else (false, Str.of_Z n ++ rest)
                  | EmptyString => (false, Str.of_Z n ++ rest)
                  end = (false, Str.of_Z n ++ rest)).
  { rewrite Hnumeral at 1. cbn [append]. rewrite Hminus, Hplus. reflexivity. }
  rewrite Hsign, (digits_prefix_numeral n rest Hn).
  assert (Hstop : Num.digits_prefix (Some n) rest = Some n).
  { destruct rest as [|r rest']; [reflexivity|].
    cbn [Num.digits_prefix]. apply negb_true_iff in Hrest. rewrite Hrest.
    reflexivity. }
  rewrite Hstop. reflexivity.
Qed.

(** An integer below [2^53] is a double. *)
Lemma of_Z_small (n : Z) : 0 <= n < 2 ^ 53 -> Num.of_Z n = Fin n.
Proof.
  intros [Hlow Hhigh]. unfold Num.of_Z, Num.round_to_double.
  rewrite (Z.abs_eq n Hlow).
  assert (Hlog : Z.log2 n < 53).
  { destruct (Z.eq_dec n 0) as [->|Hnz]; [reflexivity|].
    apply Z.log2_lt_pow2; lia. }
  destruct (Z.ltb_spec (Z.log2 n) 53); [|lia].
  destruct (Z.leb_spec (2 ^ 1024) n) as [Hbig|_].
  - exfalso. assert (2 ^ 53 < 2 ^ 1024) by (apply Z.pow_lt_mono_r; lia). lia.
  - f_equal. destruct (Z.eq_dec n 0) as [->|Hnz]; [reflexivity|].
    rewrite Z.sgn_pos by lia. lia.
Qed.

Lemma parseInt10_negative (before rest : string) (n : Z) :
  0 <= n ->
  Str.forallb Str.is_whitespace before = true ->
  match rest with
  | EmptyString => true
  | String c _ => negb (Str.is_digit c)
  end = true ->
  Num.parseInt10 (before ++ "-" ++ Str.of_Z n ++ rest) = Num.of_Z (- n).
Proof.
  intros Hn Hbefore Hrest. unfold Num.parseInt10.
  rewrite (trimStart_whitespace before _ Hbefore).
  change ("-" ++ Str.of_Z n ++ rest) with (String "-" (Str.of_Z n ++ rest)).
  cbn [Str.trimStart]. change (Str.is_whitespace "-") with false. cbv iota.
  cbn [Ascii.eqb Bool.eqb]. cbv iota.
  rewrite (digits_prefix_numeral n rest Hn).
  assert (Hstop : Num.digits_prefix (Some n) rest = Some n).
  { destruct rest as [|r rest']; [reflexivity|].
    cbn [Num.digits_prefix]. apply negb_true_iff in Hrest. rewrite Hrest.
    reflexivity. }
  rewrite Hstop. reflexivity.
Qed.

Lemma of_Z_small_negative (n : Z) :
  0 < n < 2 ^ 53 -> Num.of_Z (- n) = Fin (- n).
Proof.
  intros [Hlow Hhigh]. unfold Num.of_Z, Num.round_to_double.
  rewrite Z.abs_opp, (Z.abs_eq n) by lia.
  assert (Hlog : Z.log2 n < 53) by (apply Z.log2_lt_pow2; lia).
  destruct (Z.ltb_spec (Z.log2 n) 53); [|lia].
  destruct (Z.leb_spec (2 ^ 1024) n) as [Hbig|_].
  - exfalso. assert (2 ^ 53 < 2 ^ 1024) by (apply Z.pow_lt_mono_r; lia). lia.
  - f_equal. rewrite Z.sgn_neg by lia. lia.
Qed.

(** ** [uInt], further *)

(** X15.  [uInt] without its recursion: the integer read from [x] when
    that is acceptable, else the integer read from the default (0 when left
    out) when that is acceptable, else 0.  The default is not looked at when
    [x] reads well. *)
Theorem uInt_closed_form (x defaultValue : value) :
  Lib.uInt x defaultValue
  = let fromX := Num.parseInt10 (ToString x ++ "") in
    let fromDefault :=
      Num.parseInt10 (ToString (default_arg defaultValue (VNum (Fin 0))) ++ "") in
    if Lib.uInt_rejects fromX
    then if Lib.uInt_rejects fromDefault then Fin 0 else fromDefault
    else fromX.
Proof.
  cbv zeta. rewrite uInt_unfold.
  destruct (Lib.uInt_rejects (Num.parseInt10 (ToString x ++ "")));
    [|reflexivity].
  rewrite uInt_unfold.
  destruct (Lib.uInt_rejects _); [|reflexivity].
  cbn [default_arg]. apply uInt_zero.
Qed.

(** X16.  On a text, [uInt] reads the decimal numeral at its start: white
    space before the numeral and whatever follows its digits are ignored,
    and the number is returned whatever the default.  With a minus sign
    before a numeral other than 0 the text is refused and the default
    decides.  (For numerals below [2^53], which are read exactly.) *)
Theorem uInt_reads_leading_numeral
        (before rest : string) (n : Z) (defaultValue : value) :
  0 <= n < 2 ^ 53 ->
  Str.forallb Str.is_whitespace before = true ->
  match rest with
  | EmptyString => true
  | String c _ => negb (Str.is_digit c)
  end = true ->
  Lib.uInt (VStr (before ++ Str.of_Z n ++ rest)) defaultValue = Fin n
  /\ (0 < n ->
      Lib.uInt (VStr (before ++ "-" ++ Str.of_Z n ++ rest)) defaultValue
      = Lib.uInt (default_arg defaultValue (VNum (Fin 0))) (VNum (Fin 0))).
Proof.
  intros [Hlow Hhigh] Hbefore Hrest. split.
  - rewrite uInt_unfold. cbn [ToString]. rewrite append_empty.
    rewrite (parseInt10_numeral before rest n Hlow Hbefore Hrest).
    rewrite (of_Z_small n (conj Hlow Hhigh)).
    cbn [Lib.uInt_rejects Num.isNaN Num.isFinite Num.ltb_zero negb orb].
    destruct (Z.ltb_spec n 0); [lia|reflexivity].
  - intros Hpos. rewrite uInt_unfold. cbn [ToString]. rewrite append_empty.
    rewrite (parseInt10_negative before rest n Hlow Hbefore Hrest).
    rewrite (of_Z_small_negative n (conj Hpos Hhigh)).
    cbn [Lib.uInt_rejects Num.isNaN Num.isFinite Num.ltb_zero negb orb].
    destruct (Z.ltb_spec (- n) 0); [reflexivity|lia].
Qed.

Lemma uInt_reads_leading_numeral_witness :
  Lib.uInt (VStr "  42px") (VNum (Fin 7)) = Fin 42
  /\ Lib.uInt (VStr "  -42px") (VNum (Fin 7)) = Fin 7.
Proof.
  destruct (uInt_reads_leading_numeral "  " "px" 42 (VNum (Fin 7)))
    as [Hplain Hminus].
  - vm_compute. split; [discriminate|reflexivity].
  - reflexivity.
  - reflexivity.
  - split; [exact Hplain | exact (Hminus eq_refl)].
Defined.

(** ** [getPath], further *)

Lemma getPath_single (obj : value) (key : string) :
  has_char "." key = false ->
  Lib.getPath obj (Some key)
  = Ok (if truthy obj then own_property obj key else VUndefined).
Proof.
  intros Hkey. rewrite getPath_fold, (split_single "." key Hkey).
  cbn [fold_left]. apply descend_ok.
Qed.

Lemma getPath_first (obj : value) (key rest : string) :
  has_char "." key = false ->
  Lib.getPath obj (Some (key ++ "." ++ rest))
  = Lib.getPath (if truthy obj then own_property obj key else VUndefined)
                (Some rest).
Proof.
  intros Hkey. rewrite !getPath_fold.
  change ("." ++ rest) with (String "." rest).
  rewrite (split_first "." key rest Hkey). cbn [fold_left].
  rewrite descend_ok. reflexivity.
Qed.

(** X17.  The numeral of [n] as a key reads the element [n] of an array:
    the element itself inside the bounds, [undefined] beyond them, and the
    read never throws. *)
Theorem getPath_array_index (items : list value) (n : Z) :
  0 <= n < 2 ^ 32 - 1 ->
  Lib.getPath (VArr items) (Some (Str.of_Z n))
  = Ok (nth (Z.to_nat n) items VUndefined)
  /\ (Z.of_nat (List.length items) <= n ->
      Lib.getPath (VArr items) (Some (Str.of_Z n)) = Ok VUndefined).
Proof.
  intros [Hlow Hhigh].
  assert (Hread : Lib.getPath (VArr items) (Some (Str.of_Z n))
                  = Ok (nth (Z.to_nat n) items VUndefined)).
  { rewrite getPath_single
      by (apply digits_no_char; [reflexivity|apply numeral_digits]).
    cbn [truthy own_property].
    destruct (numeral_head n) as [c [t [Hnumeral Hdigit]]].
    destruct (digit_plain c Hdigit) as [_ [_ [_ [_ Hl]]]].
    assert (Hlength : String.eqb (Str.of_Z n) "length" = false).
    { rewrite Hnumeral. cbn [String.eqb]. rewrite Hl. reflexivity. }
    rewrite Hlength. unfold index_of_key.
    rewrite <- (append_empty (Str.of_Z n)) at 1.
    rewrite (digits_prefix_numeral n "" Hlow). cbn [Num.digits_prefix].
    rewrite String.eqb_refl.
    destruct (Z.ltb_spec n (2 ^ 32 - 1)); [reflexivity|lia]. }
  split; [exact Hread|].
  intros Hbeyond. rewrite Hread. rewrite nth_overflow by lia. reflexivity.
Qed.

Lemma getPath_array_index_witness :
  Lib.getPath (VArr [VStr "a"; VStr "b"; VStr "c"]) (Some "2") = Ok (VStr "c")
  /\ Lib.getPath (VArr [VStr "a"; VStr "b"; VStr "c"]) (Some "3")
     = Ok VUndefined.
Proof.
  split.
  - apply (proj1 (getPath_array_index [VStr "a"; VStr "b"; VStr "c"] 2
                    ltac:(vm_compute; split; [discriminate|reflexivity]))).
  - apply (proj2 (getPath_array_index [VStr "a"; VStr "b"; VStr "c"] 3
                    ltac:(vm_compute; split; [discriminate|reflexivity]))).
    vm_compute. discriminate.
Defined.

(** X18.  Reading back what was put in: under a key without a dot, the
    first field of that name is what the key reads, and a longer path goes
    on from there as a path of its own. *)
Theorem getPath_field
        (key : string) (v : value) (fields : list (string * value)) :
  has_char "." key = false ->
  Lib.getPath (VObj ((key, v) :: fields)) (Some key) = Ok v
  /\ forall path,
       Lib.getPath (VObj ((key, v) :: fields)) (Some (key ++ "." ++ path))
       = Lib.getPath v (Some path).
Proof.
  intros Hkey.
  assert (Hown : own_property (VObj ((key, v) :: fields)) key = v).
  { cbn [own_property assoc]. rewrite String.eqb_refl. reflexivity. }
  split.
  - rewrite (getPath_single _ key Hkey). cbn [truthy]. rewrite Hown. reflexivity.
  - intros path. rewrite (getPath_first _ key path Hkey). cbn [truthy].
    rewrite Hown. reflexivity.
Qed.

Lemma getPath_field_witness :
  Lib.getPath (VObj [("a", VObj [("b", VNum (Fin 1))]); ("a", VNull)])
              (Some "a.b")
  = Lib.getPath (VObj [("b", VNum (Fin 1))]) (Some "b").
Proof.
  apply (proj2 (getPath_field "a" (VObj [("b", VNum (Fin 1))]) [("a", VNull)]
                  eq_refl) "b").
Defined.

Lemma split_segments (sep : ascii) (s : string) :
  Forall (fun segment => has_char sep segment = false) (Str.split sep s).
Proof.
  induction s as [|c s IH]; cbn [Str.split].
  - repeat constructor.
  - destruct (Ascii.eqb c sep) eqn:Hc.
    + constructor; [reflexivity|exact IH].
    + pose proof (split_not_nil sep s) as Hnil.
      destruct (Str.split sep s) as [|segment segments]; [contradiction|].
      inversion IH as [|? ? Hsegment Hrest]; subst.
      constructor; [|exact Hrest].
      cbn [has_char]. rewrite Hc, Hsegment. reflexivity.
Qed.

Lemma assoc_without (key name : string) (v : value)
      (before after : list (string * value)) :
  name <> key ->
  assoc name (before ++ (key, v) :: after)%list = assoc name (before ++ after)%list.
Proof.
  intros Hname. induction before as [|[k x] before IH]; cbn [app assoc].
  - destruct (String.eqb_spec key name); [congruence|reflexivity].
  - rewrite IH. reflexivity.
Qed.

(** X19.  A field whose name has a dot in it is out of reach: no path
    reads it, and every path gives what it would give were the field not
    there. *)
Theorem getPath_dotted_field
        (key : string) (v : value) (before after : list (string * value))
        (path : string) :
  has_char "." key = true ->
  Lib.getPath (VObj (before ++ (key, v) :: after)) (Some path)
  = Lib.getPath (VObj (before ++ after)) (Some path).
Proof.
  intros Hkey. rewrite !getPath_fold.
  pose proof (split_segments "." path) as Hsegments.
  pose proof (split_not_nil "." path) as Hnil.
  destruct (Str.split "." path) as [|first segments]; [contradiction|].
  inversion Hsegments as [|? ? Hfirst _]; subst.
  cbn [fold_left]. rewrite !descend_ok. cbn [truthy own_property].
  rewrite assoc_without; [reflexivity|].
  intros ->. congruence.
Qed.

Lemma getPath_dotted_field_witness :
  Lib.getPath (VObj [("a.b", VNum (Fin 1))]) (Some "a.b")
  = Lib.getPath (VObj []) (Some "a.b").
Proof.
  apply (getPath_dotted_field "a.b" (VNum (Fin 1)) [] [] "a.b"). reflexivity.
Defined.

(** ** Numbers as arguments of [uInt] *)

(** Rounding moves no integer below [2^53]: what rounds to below [2^53]
    is exact. *)
Lemma round_to_double_exact (m : Z) :
  0 <= m -> Num.round_to_double m < 2 ^ 53 -> Num.round_to_double m = m.
Proof.
  intros Hm. unfold Num.round_to_double.
  destruct (Z.ltb_spec (Z.log2 m) 53) as [_|Hlog]; [reflexivity|].
  intros Hsmall. exfalso.
  assert (Hpos : 0 < m).
  { destruct (Z.eq_dec m 0) as [->|]; [cbn in Hlog; lia|lia]. }
  pose proof (Z.log2_spec m Hpos) as [Hlower _].
  set (k := Z.log2 m) in *. set (sh := k - 52) in *.
  assert (Hsh : 0 < sh) by (unfold sh; lia).
  assert (Hq : 2 ^ 52 <= Z.shiftr m sh).
  { rewrite Z.shiftr_div_pow2 by lia.
    apply Z.div_le_lower_bound; [apply Z.pow_pos_nonneg; lia|].
    rewrite <- Z.pow_add_r by lia. replace (sh + 52) with k by (unfold sh; lia).
    exact Hlower. }
  set (q := Z.shiftr m sh) in *.
  set (q' := if (Z.shiftl 1 (sh - 1) <? Z.land m (Z.ones sh))
                || ((Z.land m (Z.ones sh) =? Z.shiftl 1 (sh - 1)) && Z.odd q)
             then q + 1 else q) in *.
  assert (Hq' : 2 ^ 52 <= q') by (unfold q'; destruct (_ || _); lia).
  rewrite Z.shiftl_mul_pow2 in Hsmall by lia.
  assert (Hpow : 2 ^ 53 <= 2 ^ 52 * 2 ^ sh).
  { rewrite <- Z.pow_add_r by lia. apply Z.pow_le_mono_r; lia. }
  assert (Hsh_pos : 0 < 2 ^ sh) by (apply Z.pow_pos_nonneg; lia).
  nia.
Qed.

Lemma shortest_from_exact (x : Z) (fuel : nat) :
  0 < x < 2 ^ 53 ->
  forall e, 0 <= e ->
    let '(s, e') := Num.shortest_from fuel e x in
    0 < s /\ 0 <= e' /\ s * 10 ^ e' = x.
Proof.
  intros Hx. induction fuel as [|fuel IH]; intros e He.
  - cbn. repeat split; lia.
  - cbn [Num.shortest_from]. cbv zeta.
    assert (Hp : 0 < 10 ^ e) by (apply Z.pow_pos_nonneg; lia).
    assert (Hlo : 0 <= x / 10 ^ e) by (apply Z.div_pos; lia).
    assert (Hexact : forall s, 0 < s ->
              (Num.round_to_double (s * 10 ^ e) =? x) = true ->
              0 < s /\ 0 <= e /\ s * 10 ^ e = x).
    { intros s Hs Hround. apply Z.eqb_eq in Hround.
      repeat split; try lia.
      rewrite <- Hround. symmetry. apply round_to_double_exact; [nia|lia]. }
    destruct ((0 <? x / 10 ^ e)
              && (Num.round_to_double (x / 10 ^ e * 10 ^ e) =? x)) eqn:Hok_lo;
      destruct (Num.round_to_double ((x / 10 ^ e + 1) * 10 ^ e) =? x) eqn:Hok_hi;
      cbn [andb].
    + apply andb_true_iff in Hok_lo as [Hpos Hround]. apply Z.ltb_lt in Hpos.
      destruct (_ <=? _);
        [apply (Hexact _ Hpos Hround) | apply (Hexact (x / 10 ^ e + 1)); [lia|exact Hok_hi]].
    + apply andb_true_iff in Hok_lo as [Hpos Hround]. apply Z.ltb_lt in Hpos.
      apply (Hexact _ Hpos Hround).
    + apply (Hexact (x / 10 ^ e + 1)); [lia|exact Hok_hi].
    + destruct (Z.eqb_spec e 0) as [->|Hne].
      * repeat split; lia.
      * apply IH. lia.
Qed.

Lemma of_uint_acc_lower (d : Decimal.uint) :
  forall acc : positive,
    Z.pos acc * 10 ^ Z.of_nat (Decimal.nb_digits d)
    <= Z.pos (Pos.of_uint_acc d acc).
Proof.
  induction d as [|d IH|d IH|d IH|d IH|d IH|d IH|d IH|d IH|d IH|d IH];
    intros acc; [cbn; lia|..];
    cbn [Decimal.nb_digits Pos.of_uint_acc];
    rewrite Nat2Z.inj_succ, Z.pow_succ_r by lia;
    (eapply Z.le_trans; [|apply IH]);
    assert (0 < 10 ^ Z.of_nat (Decimal.nb_digits d))
      by (apply Z.pow_pos_nonneg; lia);
    nia.
Qed.

Lemma string_of_uint_length (d : Decimal.uint) :
  String.length (NilEmpty.string_of_uint d) = Decimal.nb_digits d.
Proof.
  induction d; cbn [NilEmpty.string_of_uint String.length Decimal.nb_digits];
    [reflexivity|..]; rewrite IHd; reflexivity.
Qed.

(** The numeral of a positive number has no leading zero: it is not
    longer than the number is large. *)
Lemma numeral_lower_bound (s : Z) :
  0 < s -> 10 ^ (Str.len (Str.of_Z s) - 1) <= s.
Proof.
  intros Hs. rewrite numeral_string. unfold Str.len.
  rewrite string_of_uint_length.
  destruct s as [|p|p]; try lia. cbn [Z.to_N N.to_uint].
  pose proof (DecimalPos.Unsigned.to_of (Pos.to_uint p)) as Hnorm.
  pose proof (DecimalPos.Unsigned.of_to p) as Hvalue.
  rewrite Hvalue in Hnorm. cbn [N.to_uint] in Hnorm.
  pose proof (DecimalPos.Unsigned.to_uint_nonnil p) as Hnil.
  destruct (Pos.to_uint p) as [|d|d|d|d|d|d|d|d|d|d] eqn:Hd;
    [contradiction| |
     cbn [Pos.of_uint] in Hvalue; injection Hvalue as <-;
     cbn [Decimal.nb_digits];
     replace (Z.of_nat (S (Decimal.nb_digits d)) - 1)
       with (Z.of_nat (Decimal.nb_digits d)) by lia;
     (eapply Z.le_trans; [|apply of_uint_acc_lower]);
     assert (0 < 10 ^ Z.of_nat (Decimal.nb_digits d))
       by (apply Z.pow_pos_nonneg; lia);
     lia ..].
  exfalso. unfold Decimal.unorm in Hnorm. cbn [Decimal.nzhead] in Hnorm.
  destruct (Decimal.nzhead d) as [|u|u|u|u|u|u|u|u|u|u] eqn:Hhead;
    try discriminate Hnorm.
  - injection Hnorm as ->. cbn in Hvalue. discriminate Hvalue.
  - injection Hnorm as ->.
    pose proof (DecimalFacts.nb_digits_nzhead u) as Hlen.
    rewrite Hhead in Hlen. cbn [Decimal.nb_digits] in Hlen. lia.
Qed.

Lemma digits_prefix_zeros (e : nat) :
  forall a, Num.digits_prefix (Some a) (Str.zeros e)
            = Some (a * 10 ^ Z.of_nat e).
Proof.
  induction e as [|e IH]; intros a.
  - cbn. f_equal. lia.
  - cbn [Str.zeros Num.digits_prefix]. change (Str.is_digit "0") with true.
    cbv iota. rewrite IH, Nat2Z.inj_succ, Z.pow_succ_r by lia.
    f_equal. unfold Str.digit_value, Str.code. cbn [N_of_ascii N_of_digits].
    lia.
Qed.

(** The text of a non-negative integer below [2^53] reads back as the
    integer. *)
Lemma parseInt10_toString (n : Z) :
  0 <= n < 2 ^ 53 -> Num.parseInt10 (Num.toString (Fin n) ++ "") = Fin n.
Proof.
  intros [Hlow Hhigh]. rewrite append_empty.
  destruct (Z.eq_dec n 0) as [->|Hnz]; [reflexivity|].
  cbn [Num.toString].
  destruct (Z.eqb_spec n 0); [contradiction|].
  destruct (Z.ltb_spec n 0); [lia|].
  unfold Num.toString_pos, Num.shortest.
  assert (Hpos : 0 < n) by lia.
  pose proof (shortest_from_exact n
                (S (String.length (Str.of_Z n))) (conj Hpos Hhigh)
                (Z.of_nat (String.length (Str.of_Z n)))
                (Nat2Z.is_nonneg _)) as Hshort.
  destruct (Num.shortest_from _ _ n) as [s e].
  destruct Hshort as [Hs [He Hexact]].
  pose proof (numeral_lower_bound s Hs) as Hbound.
  assert (Hlen : Str.len (Str.of_Z s) + e <= 21).
  { destruct (Z.le_gt_cases (Str.len (Str.of_Z s) + e) 21) as [|Hlong];
      [assumption|exfalso].
    assert (Hlen_pos : 0 <= Str.len (Str.of_Z s) - 1).
    { unfold Str.len. destruct (numeral_head s) as [c [t [-> _]]].
      cbn [String.length]. lia. }
    assert (Hbig : 10 ^ 21 <= 10 ^ (Str.len (Str.of_Z s) - 1) * 10 ^ e).
    { rewrite <- Z.pow_add_r by lia. apply Z.pow_le_mono_r; lia. }
    assert (He_pos : 0 < 10 ^ e) by (apply Z.pow_pos_nonneg; lia).
    assert (H53 : 2 ^ 53 < 10 ^ 21) by reflexivity.
    nia. }
  destruct (Z.leb_spec (Str.len (Str.of_Z s) + e) 21); [|lia].
  unfold Num.parseInt10.
  destruct (numeral_head s) as [c [t [Hnumeral Hdigit]]].
  destruct (digit_plain c Hdigit) as [Hws [Hminus [Hplus _]]].
  assert (Htrim : Str.trimStart (Str.of_Z s ++ Str.zeros (Z.to_nat e))
                  = Str.of_Z s ++ Str.zeros (Z.to_nat e)).
  { rewrite Hnumeral. cbn [append Str.trimStart]. rewrite Hws. reflexivity. }
  rewrite Htrim.
  assert (Hsign : match Str.of_Z s ++ Str.zeros (Z.to_nat e) with
                  | String c r =>
                      if Ascii.eqb c "-" then (true, r)
                      else if Ascii.eqb c "+" then (false, r)
                      else (false, Str.of_Z s ++ Str.zeros (Z.to_nat e))
                  | EmptyString => (false, Str.of_Z s ++ Str.zeros (Z.to_nat e))
                  end = (false, Str.of_Z s ++ Str.zeros (Z.to_nat e))).
  { rewrite Hnumeral at 1. cbn [append]. rewrite Hminus, Hplus. reflexivity. }
  rewrite Hsign, (digits_prefix_numeral s _ (Z.lt_le_incl _ _ Hs)),
          digits_prefix_zeros.
  rewrite Z2Nat.id by exact He. rewrite Hexact.
  apply of_Z_small. lia.
Qed.

(** X20.  A number that is a non-negative integer below [2^53] goes
    through [uInt] unchanged, whatever the default; so [uInt] applied to
    such a result of its own changes nothing. *)
Theorem uInt_keeps_safe_integers (n : Z) (defaultValue : value) :
  0 <= n < 2 ^ 53 -> Lib.uInt (VNum (Fin n)) defaultValue = Fin n.
Proof.
  intros Hn. rewrite uInt_unfold. cbn [ToString].
  rewrite (parseInt10_toString n Hn).
  cbn [Lib.uInt_rejects Num.isNaN Num.isFinite Num.ltb_zero negb orb].
  destruct (Z.ltb_spec n 0); [lia|reflexivity].
Qed.

Lemma uInt_keeps_safe_integers_witness :
  Lib.uInt (VNum (Fin 9007199254740991)) (VStr "ignored")
  = Fin 9007199254740991.
Proof.
  apply (uInt_keeps_safe_integers 9007199254740991 (VStr "ignored")).
  vm_compute. split; [discriminate|reflexivity].
Defined.

(** Beyond the safe integers the text of a number may be in exponent
    form, of which [uInt] reads the first digits only. *)
Example uInt_exponent_form :
  ToString (VNum (Fin (10 ^ 21))) = "1e+21"
  /\ Lib.uInt (VNum (Fin (10 ^ 21))) VUndefined = Fin 1.
Proof. split; vm_compute; reflexivity. Qed.
